(** * mongo-aggregation-debugger: the staged executor of [index.js]

    A shallow embedding of [src/index.js].  JavaScript values are an
    inductive type, the driver (MongoClient, Db, Collection) is an oracle
    that answers every request, and the code runs in a small monad that
    threads the module's mutable state, collects the trace of the actions
    the code performs, and propagates thrown exceptions. *)

From Stdlib Require Import ZArith NArith List String Ascii Bool Lia.
From Stdlib Require Import Decimal DecimalString DecimalN.
Import ListNotations.
Local Open Scope string_scope.
Local Open Scope list_scope.

Set Implicit Arguments.
Set Warnings "-register-all".

(* ================================================================== *)
(** ** JavaScript values *)

(** Numbers are integers (no floating point value is involved in the
    code).  [VFun] is a function object whose body is not modelled. *)
Inductive value : Type :=
| VUndefined
| VNull
| VBool (b : bool)
| VNum (n : Z)
| VStr (s : string)
| VArr (items : list value)
| VObj (fields : list (string * value))
| VFun (name : string).

Inductive js_type := TUndefined | TObject | TBoolean | TNumber | TString | TFunction.

Definition js_type_eqb (a b : js_type) : bool :=
  match a, b with
  | TUndefined, TUndefined | TObject, TObject | TBoolean, TBoolean
  | TNumber, TNumber | TString, TString | TFunction, TFunction => true
  | _, _ => false
  end.

(** [typeof v] *)
Definition typeof (v : value) : js_type :=
  match v with
  | VUndefined => TUndefined
  | VNull => TObject
  | VBool _ => TBoolean
  | VNum _ => TNumber
  | VStr _ => TString
  | VArr _ => TObject
  | VObj _ => TObject
  | VFun _ => TFunction
  end.

(** ToBoolean, as used by [if (v)], [!v], [a && b] and [a || b]. *)
Definition truthy (v : value) : bool :=
  match v with
  | VUndefined | VNull => false
  | VBool b => b
  | VNum n => negb (Z.eqb n 0)
  | VStr s => negb (String.eqb s "")
  | VArr _ | VObj _ | VFun _ => true
  end.

(** [Array.isArray(v)] *)
Definition isArray (v : value) : bool :=
  match v with VArr _ => true | _ => false end.

(** [o[k]] on an object literal; any other receiver has no such property. *)
Fixpoint assoc (k : string) (fields : list (string * value)) : value :=
  match fields with
  | [] => VUndefined
  | (k', v) :: rest => if String.eqb k k' then v else assoc k rest
  end.

Definition get_prop (o : value) (k : string) : value :=
  match o with
  | VObj fields => assoc k fields
  | _ => VUndefined
  end.

(** [o[k] = v] on an object literal: the property keeps its place when it
    exists and is appended otherwise. *)
Fixpoint upsert (k : string) (v : value) (fields : list (string * value))
  : list (string * value) :=
  match fields with
  | [] => [(k, v)]
  | (k', v') :: rest =>
      if String.eqb k k' then (k, v) :: rest else (k', v') :: upsert k v rest
  end.

Definition set_prop (o : value) (k : string) (v : value) : value :=
  match o with
  | VObj fields => VObj (upsert k v fields)
  | _ => o
  end.

(** [a[i] = v] on an array: JavaScript extends the array with holes when
    [i] is past the end. *)
Fixpoint array_set (a : list value) (i : nat) (v : value) : list value :=
  match a, i with
  | [], O => [v]
  | [], S i' => VUndefined :: array_set [] i' v
  | _ :: rest, O => v :: rest
  | x :: rest, S i' => x :: array_set rest i' v
  end.

(** [a[i]] on an array: [undefined] out of range. *)
Definition array_get (a : list value) (i : nat) : value := nth i a VUndefined.

(** An argument position that may hold a closure of the module itself
    (whose effect [F] is modelled) or any other value. *)
Inductive arg (F : Type) : Type :=
| Fn (f : F)
| Val (v : value).
Arguments Fn {F} f.
Arguments Val {F} v.

Definition typeof_arg {F} (a : arg F) : js_type :=
  match a with Fn _ => TFunction | Val v => typeof v end.

Definition is_function {F} (a : arg F) : bool := js_type_eqb (typeof_arg a) TFunction.

Definition is_undefined {F} (a : arg F) : bool := js_type_eqb (typeof_arg a) TUndefined.

(** [new Error(message)] and the errors the driver reports. *)
Inductive error := Error (message : string).

(** [a || b] on two error slots ([None] is [null] / [undefined]). *)
Definition js_or (a b : option error) : option error :=
  match a with Some e => Some e | None => b end.

(* ================================================================== *)
(** ** The driver and the trace *)

(** Every action the code performs on the driver, and every call of a
    hook or of the completion callback. *)
Inductive event :=
| EConnect (url : string)                                 (* MongoClient.connect *)
| EInsert (collection : string) (docs : list value)       (* collection.insert *)
| EAggregate (collection : string) (pipeline : list value) (* collection.aggregate *)
| EDropDatabase                                           (* db.dropDatabase *)
| EClose                                                  (* db.close *)
| EBefore (queryPart : list value) (index : nat)          (* beforeEach(queryPart, index) *)
| EAfter (results : list value) (index : nat)             (* afterEach(results, index) *)
| EDone (err : option error).                             (* cb(err) / cb() *)

(** The two places of [debug] that call [db.dropDatabase]. *)
Inductive drop_site := DropInSeries | DropOnError.

(** The answers of the driver during one session.  [aggregate_result i p]
    answers the [i]-th sub-pipeline [p]. *)
Record engine := {
  connect_result : string -> option error;
  insert_result : list value -> option error;
  aggregate_result : nat -> list value -> error + list value;
  drop_result : drop_site -> option error
}.

(* ================================================================== *)
(** ** Module state: [my], the implicit global [doSkipStages] *)

Record mongo_params := {
  host : string;
  port : N;
  username : option string;
  password : option string
}.

Record my_state := {
  mongoParams : mongo_params;
  collectionName : string;
  debugDatabaseName : option string
}.

(** [_.extend(my.defaultMongoParams, mongoParams || {})] writes into the
    default object and returns it: [my.mongoParams] and
    [my.defaultMongoParams] are one object. *)
Definition defaultMongoParams (m : my_state) : mongo_params := mongoParams m.

Record mongo_options := {
  opt_host : option string;
  opt_port : option N;
  opt_username : option string;
  opt_password : option string
}.

Definition no_options : mongo_options :=
  {| opt_host := None; opt_port := None; opt_username := None; opt_password := None |}.

Definition or_default {A} (o : option A) (d : A) : A :=
  match o with Some a => a | None => d end.

(** The constructor [mongoAggregationDebugger(mongoParams)]. *)
Definition mongoAggregationDebugger (params : mongo_options) : my_state :=
  {| mongoParams :=
       {| host := or_default (opt_host params) "localhost";
          port := or_default (opt_port params) 27017%N;
          username := opt_username params;
          password := opt_password params |};
     collectionName := "documents";
     debugDatabaseName := None |}.

(** Decimal rendering of a non-negative integer, as string concatenation
    with a number does. *)
Definition string_of_N (n : N) : string := NilEmpty.string_of_uint (N.to_uint n).

Definition truthy_string (s : string) : bool := negb (String.eqb s "").

Definition truthy_opt_string (o : option string) : bool :=
  match o with Some s => truthy_string s | None => false end.

(** ['mongo_aggregation_debugger_' + process.pid + '_' + Date.now()] *)
Definition database_name (pid now : N) : string :=
  ("mongo_aggregation_debugger_" ++ string_of_N pid ++ "_" ++ string_of_N now)%string.

(* ================================================================== *)
(** ** Partitioning *)

(** [l.forEach(function (x, index) {...})] as a fold that carries the
    state the callback mutates. *)
Fixpoint forEach_from {A St : Type} (f : A -> nat -> St -> St)
         (l : list A) (index : nat) (st : St) : St :=
  match l with
  | [] => st
  | x :: rest => forEach_from f rest (S index) (f x index st)
  end.

Definition forEach {A St : Type} (f : A -> nat -> St -> St) (l : list A) (st : St) : St :=
  forEach_from f l 0 st.

(** The body of the [forEach] of [partitionQuery].  [None] is the
    TypeError of [undefined.push] when [queryParts[index - 1]] is absent. *)
Definition partition_step (queryPart : value) (index : nat)
           (queryParts : option (list (list value))) : option (list (list value)) :=
  match queryParts with
  | None => None
  | Some parts =>
      if Nat.eqb index 0 then Some (parts ++ [[queryPart]])
      else match nth_error parts (index - 1) with
           | Some previous => Some (parts ++ [previous ++ [queryPart]])
           | None => None
           end
  end.

Definition partitionQuery (query : list value) (skipStages : bool)
  : option (list (list value)) :=
  if skipStages then Some [query]
  else forEach partition_step query (Some []).

(* ================================================================== *)
(** ** The execution monad *)

Inductive result (A : Type) : Type :=
| Ok (a : A)
| Throw (e : error).
Arguments Ok {A} a.
Arguments Throw {A} e.

Section Monad.

(** The state the hooks and the completion callback own (the variables
    their closures capture). *)
Variable Obs : Type.

Record world := {
  obs : Obs;
  doSkipStages : bool;
  my : my_state;
  pid : N;
  clock : N
}.

Definition M (A : Type) : Type := world -> result A * world * list event.

Definition ret {A} (a : A) : M A := fun w => (Ok a, w, []).

Definition bind {A B} (m : M A) (k : A -> M B) : M B := fun w =>
  match m w with
  | (Ok a, w1, t1) =>
      match k a w1 with
      | (r, w2, t2) => (r, w2, t1 ++ t2)
      end
  | (Throw e, w1, t1) => (Throw e, w1, t1)
  end.

Definition throw {A} (e : error) : M A := fun w => (Throw e, w, []).

Definition emit (e : event) : M unit := fun w => (Ok tt, w, [e]).

Definition get : M world := fun w => (Ok w, w, []).

Definition modify (f : world -> world) : M unit := fun w => (Ok tt, f w, []).

Definition set_obs (s : Obs) (w : world) : world :=
  {| obs := s; doSkipStages := doSkipStages w; my := my w; pid := pid w; clock := clock w |}.

Definition set_doSkipStages (b : bool) (w : world) : world :=
  {| obs := obs w; doSkipStages := b; my := my w; pid := pid w; clock := clock w |}.

Definition set_my (m : my_state) (w : world) : world :=
  {| obs := obs w; doSkipStages := doSkipStages w; my := m; pid := pid w; clock := clock w |}.

Definition set_clock (t : N) (w : world) : world :=
  {| obs := obs w; doSkipStages := doSkipStages w; my := my w; pid := pid w; clock := t |}.

(** The whole of an asynchronous call: what runs now returns the
    continuation the event loop runs later. *)
Definition run_pending (pending : option (M unit)) : M unit :=
  match pending with Some k => k | None => ret tt end.

Definition run_session (start : M (option (M unit))) : M unit :=
  bind start run_pending.

End Monad.

Arguments ret {Obs A} a.
Arguments throw {Obs A} e.
Arguments emit {Obs} e.
Arguments get {Obs}.
Arguments modify {Obs} f.
Arguments bind {Obs A B} m k.

Notation "x <- m ;; k" := (bind m (fun x => k))
  (at level 61, m at next level, right associativity).
Notation "m ;; k" := (bind m (fun _ => k))
  (at level 61, right associativity).

Section Executor.

Variable Obs : Type.

(** The driver of the session. *)
Variable mongo : engine.

Local Abbreviation M := (M Obs).
Local Abbreviation world := (world Obs).

Definition hook : Type := list value -> nat -> Obs -> Obs.
Definition callback : Type := option error -> Obs -> Obs.

Definition noop_hook : hook := fun _ _ s => s.

Definition TypeError : error := Error "TypeError: not a function".

(** The body of a closure: the state of the hooks it leaves, or the
    exception it throws. *)
Definition run_closure (body : Obs -> result Obs) : M unit := fun w =>
  match body (obs w) with
  | Ok s => (Ok tt, set_obs s w, [])
  | Throw e => (Throw e, w, [])
  end.

(** A call [f(...)]: [ev] records it, [app] is the body of a closure of
    the module; a call of a value that is not a function throws. *)
Definition call {F} (ev : event) (f : arg F) (app : F -> Obs -> result Obs) : M unit :=
  match f with
  | Fn g => emit ev ;; run_closure (app g)
  | Val (VFun _) => emit ev
  | Val _ => throw TypeError
  end.

(* ------------------------------------------------------------------ *)
(** *** The ephemeral store *)

Definition generateDatabaseName : M string :=
  w <- get ;; ret (database_name (pid w) (clock w)).

Definition set_host (h : string) (m : my_state) : my_state :=
  {| mongoParams := {| host := h; port := port (mongoParams m);
                       username := username (mongoParams m);
                       password := password (mongoParams m) |};
     collectionName := collectionName m;
     debugDatabaseName := debugDatabaseName m |}.

Definition set_debugDatabaseName (name : string) (m : my_state) : my_state :=
  {| mongoParams := mongoParams m;
     collectionName := collectionName m;
     debugDatabaseName := Some name |}.

Definition buildConnectionUrl : M string :=
  modify (fun w =>
    if negb (truthy_string (host (mongoParams (my w))))
    then set_my (set_host (host (defaultMongoParams (my w))) (my w)) w
    else w) ;;
  w <- get ;;
  let p := mongoParams (my w) in
  let url := "mongodb://" in
  let url :=
    if truthy_opt_string (username p) && truthy_opt_string (password p)
    then (url ++ or_default (username p) "" ++ ":" ++ or_default (password p) "" ++ "@")%string
    else url in
  let url := (url ++ host p)%string in
  let url :=
    if negb (N.eqb (port p) 0) then (url ++ ":" ++ string_of_N (port p))%string else url in
  name <- (if truthy_opt_string (debugDatabaseName (my w))
           then ret (or_default (debugDatabaseName (my w)) "")
           else generateDatabaseName) ;;
  modify (fun w => set_my (set_debugDatabaseName name (my w)) w) ;;
  ret (url ++ "/" ++ name)%string.

(** [MongoClient.connect(buildConnectionUrl(), options, cb)]: the request
    is sent now, [cb] runs when the driver answers. *)
Definition getMongoConnection (cb : option error -> M unit) : M (M unit) :=
  url <- buildConnectionUrl ;;
  emit (EConnect url) ;;
  ret (cb (connect_result mongo url)).

(* ------------------------------------------------------------------ *)
(** *** The series of tasks *)

(** [async.series(tasks, done)]: each task reports an error or nothing;
    the first error ends the series. *)
Fixpoint async_series (tasks : list (M (option error))) : M (option error) :=
  match tasks with
  | [] => ret None
  | task :: rest =>
      err <- task ;;
      match err with
      | Some e => ret (Some e)
      | None => async_series rest
      end
  end.

Definition insert_task (collection : string) (data : list value) : M (option error) :=
  emit (EInsert collection data) ;;
  ret (insert_result mongo data).

Definition stage_task (beforeEach afterEach : arg hook) (collection : string)
           (queryPart : list value) (index : nat) : M (option error) :=
  call (EBefore queryPart index) beforeEach (fun f s => Ok (f queryPart index s)) ;;
  emit (EAggregate collection queryPart) ;;
  match aggregate_result mongo index queryPart with
  | inl err => ret (Some err)
  | inr results =>
      call (EAfter results index) afterEach (fun f s => Ok (f results index s)) ;;
      ret None
  end.

Definition dropDatabase_task : M (option error) :=
  emit EDropDatabase ;;
  ret (drop_result mongo DropInSeries).

(* ------------------------------------------------------------------ *)
(** *** The completion callback *)

(** The completion callback of [debug] is a function of the caller, which
    the model takes as an observer ([callback]), or the closure one of
    the public methods builds around the callback of its own caller
    ([method_callback]): that closure throws when the call inside it
    does.  [C] is the kind of closure and [apply_cb] its body. *)
Definition method_callback : Type := option error -> Obs -> result Obs.

Definition apply_callback (f : callback) (err : option error) (s : Obs) : result Obs :=
  Ok (f err s).

Definition apply_method_callback (f : method_callback) (err : option error) (s : Obs)
  : result Obs :=
  f err s.

Section Completion.

Variable C : Type.
Variable apply_cb : C -> option error -> Obs -> result Obs.

Definition call_cb_with (cb : arg C) (err : option error) : M unit :=
  call (EDone err) cb (fun f => apply_cb f err).

(** The final callback of [async.series].  The error branch has no
    [return]: after sending the drop request the code goes on to
    [db.close(); return cb();], and the answer to the drop request runs
    its callback afterwards. *)
Definition series_done_with (cb : arg C) (err : option error) : M unit :=
  pending <-
    match err with
    | Some e =>
        emit EDropDatabase ;;
        ret (Some (emit EClose ;;
                   call_cb_with cb (js_or (drop_result mongo DropOnError) (Some e))))
    | None => ret None
    end ;;
  emit EClose ;;
  call_cb_with cb None ;;
  run_pending pending.

(** The callback of [getMongoConnection]. *)
Definition connected_with (data query : list value) (beforeEach afterEach : arg hook)
           (cb : arg C) (err : option error) : M unit :=
  match err with
  | Some e => call_cb_with cb (Some e)
  | None =>
      w <- get ;;
      let collection := collectionName (my w) in
      match partitionQuery query (doSkipStages w) with
      | None => throw TypeError
      | Some queryParts =>
          let series := [insert_task collection data] in
          let series :=
            forEach (fun queryPart index series =>
                       series ++ [stage_task beforeEach afterEach collection queryPart index])
                    queryParts series in
          let series := series ++ [dropDatabase_task] in
          err <- async_series series ;;
          series_done_with cb err
      end
  end.

(* ------------------------------------------------------------------ *)
(** *** [debug] *)

(** The normalisation of [data]: an array as it is, any other truthy
    object as a one-element array. *)
Definition normalise_data (data : value) : option (list value) :=
  match data with
  | VArr items => Some items
  | _ => if truthy data && js_type_eqb (typeof data) TObject then Some [data] else None
  end.

Definition default_hook (h : arg hook) : arg hook :=
  if is_function h then h else Fn noop_hook.

(** [debug] after the [skipStages] / [cb] overload is settled. *)
Definition debug_checked_with (data query : value) (beforeEach afterEach : arg hook)
           (cb : arg C) : M (option (M unit)) :=
  if negb (is_function cb) then throw (Error "Invalid callback")
  else
    match normalise_data data with
    | None => call_cb_with cb (Some (Error "Invalid `data`")) ;; ret None
    | Some data =>
        match query with
        | VArr query =>
            let beforeEach := default_hook beforeEach in
            let afterEach := default_hook afterEach in
            pending <-
              getMongoConnection (connected_with data query beforeEach afterEach cb) ;;
            ret (Some pending)
        | _ => call_cb_with cb (Some (Error "Invalid `query`")) ;; ret None
        end
    end.

(** [debug(data, query, beforeEach, afterEach, skipStages, cb)].  The
    local [doSkipStegaes] is never read; [doSkipStages] is an implicit
    global. *)
Definition debug_with (data query : value) (beforeEach afterEach : arg hook)
           (skipStages cb : arg C) : M (option (M unit)) :=
  if is_function skipStages && is_undefined cb then
    modify (set_doSkipStages false) ;;
    debug_checked_with data query beforeEach afterEach skipStages
  else
    match skipStages with
    | Val (VBool b) =>
        modify (set_doSkipStages b) ;;
        debug_checked_with data query beforeEach afterEach cb
    | _ => call_cb_with cb (Some (Error "Invalid `skipStages` value")) ;; ret None
    end.

End Completion.

(** [debug] and its parts when the completion callback is a function of
    the caller. *)
Definition call_cb : arg callback -> option error -> M unit :=
  call_cb_with apply_callback.

Definition series_done : arg callback -> option error -> M unit :=
  series_done_with apply_callback.

Definition connected
  : list value -> list value -> arg hook -> arg hook -> arg callback -> option error -> M unit :=
  connected_with apply_callback.

Definition debug_checked
  : value -> value -> arg hook -> arg hook -> arg callback -> M (option (M unit)) :=
  debug_checked_with apply_callback.

Definition debug
  : value -> value -> arg hook -> arg hook -> arg callback -> arg callback ->
    M (option (M unit)) :=
  debug_with apply_callback.

End Executor.

(* ================================================================== *)
(** ** The public methods *)

Section Adapters.

(** The state of the caller, which the completion callback updates. *)
Variable U : Type.

Variable mongo : engine.

(** A completion callback [cb(err, output)]. *)
Definition user_callback : Type := option error -> value -> U -> U.

Definition noop_callback : user_callback := fun _ _ u => u.

(** [if (typeof cb !== 'function') { cb = function () {}; }] *)
Definition default_callback (cb : arg user_callback) : arg user_callback :=
  if is_function cb then cb else Fn noop_callback.

(** The call [cb(err, output)]: the caller's state after it, or the
    TypeError of calling a value that is not a function.  A function
    value whose body is not modelled leaves the caller's state as it is. *)
Definition call_user (cb : arg user_callback) (err : option error) (output : value)
           (u : U) : result U :=
  match cb with
  | Fn f => Ok (f err output u)
  | Val (VFun _) => Ok u
  | Val _ => Throw TypeError
  end.

(** [return cb(...)] at the end of a closure whose own variables are [x]. *)
Definition returning {X} (x : X) (r : result U) : result (X * U) :=
  match r with
  | Ok u => Ok (x, u)
  | Throw e => Throw e
  end.

(* ------------------------------------------------------------------ *)
(** *** [log] *)

Inductive console_line :=
| LStart
| LStage (number : nat) (operationType : value)
| LQuery (queryPart : list value)
| LResultsHeader
| LInspect (results : list value)
| LBlank
| LEnd.

(** [_.keys(v)[0]] *)
Definition first_key (v : value) : value :=
  match v with
  | VObj ((k, _) :: _) => VStr k
  | VArr (_ :: _) => VStr "0"
  | _ => VUndefined
  end.

Definition print {X} (lines : list console_line) (s : list console_line * X)
  : list console_line * X :=
  (fst s ++ lines, snd s).

(** [options.showQuery] after [options = options || {}]. *)
Definition showQuery (options : arg user_callback) : bool :=
  match options with
  | Val v => truthy (get_prop (if truthy v then v else VObj []) "showQuery")
  | Fn _ => false
  end.

Definition log_beforeEach (options : arg user_callback) : hook (list console_line * U) :=
  fun queryPart index s =>
    let operationType := first_key (last queryPart VUndefined) in
    let s := print [LStage (index + 1) operationType] s in
    if showQuery options then print [LQuery queryPart; LResultsHeader] s else s.

Definition log_afterEach : hook (list console_line * U) :=
  fun results _ s => print [LInspect results; LBlank] s.

Definition log_callback (cb : arg user_callback)
  : method_callback (list console_line * U) :=
  fun err s =>
    match err with
    | Some e => returning (fst s) (call_user cb (Some e) VUndefined (snd s))
    | None =>
        let s := print [LEnd] s in
        returning (fst s) (call_user cb None VUndefined (snd s))
    end.

Definition log (data query : value) (options cb : arg user_callback)
  : M (list console_line * U) (option (M (list console_line * U) unit)) :=
  let cb := if is_function options && is_undefined cb then options else cb in
  let cb := default_callback cb in
  modify (fun w => set_obs (print [LStart] (obs w)) w) ;;
  debug_with mongo (@apply_method_callback _) data query
    (Fn (log_beforeEach options)) (Fn log_afterEach)
    (Fn (log_callback cb)) (Val VUndefined).

(* ------------------------------------------------------------------ *)
(** *** [stages] *)

Definition stages_beforeEach : hook (list value * U) :=
  fun queryPart index s => (fst s ++ [VObj [("query", VArr queryPart)]], snd s).

Definition stages_afterEach : hook (list value * U) :=
  fun results index s =>
    let output := fst s in
    let entry := array_get output index in
    let entry := if truthy entry then entry else VObj [] in
    (array_set output index (set_prop entry "results" (VArr results)), snd s).

Definition stages_callback (cb : arg user_callback) : method_callback (list value * U) :=
  fun err s =>
    match err with
    | Some e => returning (fst s) (call_user cb (Some e) VUndefined (snd s))
    | None => returning (fst s) (call_user cb None (VArr (fst s)) (snd s))
    end.

Definition stages (data query : value) (cb : arg user_callback)
  : M (list value * U) (option (M (list value * U) unit)) :=
  let cb := default_callback cb in
  modify (fun w => set_obs ([], snd (obs w)) w) ;;
  debug_with mongo (@apply_method_callback _) data query
    (Fn stages_beforeEach) (Fn stages_afterEach)
    (Fn (stages_callback cb)) (Val VUndefined).

(* ------------------------------------------------------------------ *)
(** *** [exec] *)

Definition exec_afterEach : hook (value * U) :=
  fun results _ s => (VArr results, snd s).

Definition exec_callback (cb : arg user_callback) : method_callback (value * U) :=
  fun err s =>
    match err with
    | Some e => returning (fst s) (call_user cb (Some e) VUndefined (snd s))
    | None => returning (fst s) (call_user cb None (fst s) (snd s))
    end.

Definition exec (data query : value) (cb : arg user_callback)
  : M (value * U) (option (M (value * U) unit)) :=
  let cb := default_callback cb in
  modify (fun w => set_obs (VUndefined, snd (obs w)) w) ;;
  debug_with mongo (@apply_method_callback _) data query
    (Val VNull) (Fn exec_afterEach)
    (Val (VBool true)) (Fn (exec_callback cb)).

End Adapters.

(* ================================================================== *)
(** ** What a run does, in closed form *)

(** [xs.forEach(function (x, i) { acc.push(f(x, i)) })] appends the
    indexed image of [xs]. *)
Fixpoint mapi_from {A B : Type} (f : A -> nat -> B) (l : list A) (index : nat) : list B :=
  match l with
  | [] => []
  | x :: rest => f x index :: mapi_from f rest (S index)
  end.

(** The cumulative sub-pipelines of a pipeline: its non-empty prefixes. *)
Definition prefixes (query : list value) : list (list value) :=
  map (fun i => firstn (S i) query) (seq 0 (List.length query)).

Definition parts_of (query : list value) (skipStages : bool) : list (list value) :=
  if skipStages then [query] else prefixes query.

(** Which [skipStages] / [cb] pairs reach the validation of [debug], with
    the mode and the callback they stand for. *)
Definition resolve_call {F} (skipStages cb : arg F) : option (bool * arg F) :=
  if is_function skipStages && is_undefined cb then Some (false, skipStages)
  else match skipStages with
       | Val (VBool b) => if is_function cb then Some (b, cb) else None
       | _ => None
       end.

Section Closed_form.

Variable Obs : Type.
Variable mongo : engine.

(** The effect of a call on the state of the hooks. *)
Definition effect {F} (f : arg F) (app : F -> Obs -> Obs) : Obs -> Obs :=
  match f with
  | Fn g => app g
  | Val _ => fun s => s
  end.

Definition hook_effect (h : arg (hook Obs)) (x : list value) (index : nat) : Obs -> Obs :=
  effect h (fun f => f x index).

Definition cb_effect (cb : arg (callback Obs)) (err : option error) : Obs -> Obs :=
  effect cb (fun f => f err).

(** The name of the store of a session: the one [my] holds, or a new one. *)
Definition store_name (w : world Obs) : string :=
  if truthy_opt_string (debugDatabaseName (my w))
  then or_default (debugDatabaseName (my w)) ""
  else database_name (pid w) (clock w).

Definition base_url (p : mongo_params) : string :=
  let url := "mongodb://" in
  let url :=
    if truthy_opt_string (username p) && truthy_opt_string (password p)
    then (url ++ or_default (username p) "" ++ ":" ++ or_default (password p) "" ++ "@")%string
    else url in
  let url := (url ++ host p)%string in
  if negb (N.eqb (port p) 0) then (url ++ ":" ++ string_of_N (port p))%string else url.

Definition connection_url (w : world Obs) : string :=
  (base_url (mongoParams (my w)) ++ "/" ++ store_name w)%string.

Definition name_store (w : world Obs) : world Obs :=
  set_my (set_debugDatabaseName (store_name w) (my w)) w.

Section Stages.

Variables beforeEach afterEach : arg (hook Obs).
Variable collection : string.

(** The first sub-pipeline the driver rejects. *)
Fixpoint stage_error (parts : list (list value)) (index : nat) : option error :=
  match parts with
  | [] => None
  | queryPart :: rest =>
      match aggregate_result mongo index queryPart with
      | inl e => Some e
      | inr _ => stage_error rest (S index)
      end
  end.

(** What the stage tasks do until the first rejected sub-pipeline. *)
Fixpoint stage_events (parts : list (list value)) (index : nat) : list event :=
  match parts with
  | [] => []
  | queryPart :: rest =>
      match aggregate_result mongo index queryPart with
      | inl e => [EBefore queryPart index; EAggregate collection queryPart]
      | inr results =>
          EBefore queryPart index :: EAggregate collection queryPart
            :: EAfter results index :: stage_events rest (S index)
      end
  end.

(** The state of the hooks after those calls. *)
Fixpoint stage_obs (parts : list (list value)) (index : nat) (s : Obs) : Obs :=
  match parts with
  | [] => s
  | queryPart :: rest =>
      let s := hook_effect beforeEach queryPart index s in
      match aggregate_result mongo index queryPart with
      | inl e => s
      | inr results => stage_obs rest (S index) (hook_effect afterEach results index s)
      end
  end.

(** The error that ends the series: of seeding, of a sub-pipeline, or of
    the teardown. *)
Definition processing_error (docs : list value) (parts : list (list value)) : option error :=
  match insert_result mongo docs with
  | Some e => Some e
  | None => stage_error parts 0
  end.

Definition series_error (docs : list value) (parts : list (list value)) : option error :=
  match processing_error docs parts with
  | Some e => Some e
  | None => drop_result mongo DropInSeries
  end.

Definition series_events (docs : list value) (parts : list (list value)) : list event :=
  EInsert collection docs ::
    match insert_result mongo docs with
    | Some _ => []
    | None =>
        stage_events parts 0 ++
        match stage_error parts 0 with
        | Some _ => []
        | None => [EDropDatabase]
        end
    end.

Definition series_obs (docs : list value) (parts : list (list value)) (s : Obs) : Obs :=
  match insert_result mongo docs with
  | Some _ => s
  | None => stage_obs parts 0 s
  end.

End Stages.

(** What the final callback of the series does. *)
Definition done_events (err : option error) : list event :=
  match err with
  | Some e =>
      [EDropDatabase; EClose; EDone None; EClose;
       EDone (js_or (drop_result mongo DropOnError) (Some e))]
  | None => [EClose; EDone None]
  end.

Definition done_obs (cb : arg (callback Obs)) (err : option error) (s : Obs) : Obs :=
  match err with
  | Some e => cb_effect cb (js_or (drop_result mongo DropOnError) (Some e)) (cb_effect cb None s)
  | None => cb_effect cb None s
  end.

(** A whole session whose arguments are valid, from the world [w] in
    which [doSkipStages] is already set. *)
Definition session_events (docs query : list value) (w : world Obs) : list event :=
  EConnect (connection_url w) ::
    match connect_result mongo (connection_url w) with
    | Some e => [EDone (Some e)]
    | None =>
        let parts := parts_of query (doSkipStages w) in
        series_events (collectionName (my w)) docs parts ++
        done_events (series_error docs parts)
    end.

Definition session_obs (beforeEach afterEach : arg (hook Obs)) (cb : arg (callback Obs))
           (docs query : list value) (w : world Obs) : Obs :=
  match connect_result mongo (connection_url w) with
  | Some e => cb_effect cb (Some e) (obs w)
  | None =>
      let parts := parts_of query (doSkipStages w) in
      done_obs cb (series_error docs parts)
        (series_obs (default_hook beforeEach) (default_hook afterEach) docs parts (obs w))
  end.

End Closed_form.

(* ------------------------------------------------------------------ *)
(** *** Observations on a trace *)

Definition trace_of {A W : Type} (r : A * W * list event) : list event := snd r.
Definition world_of {A W : Type} (r : A * W * list event) : W := snd (fst r).
Definition result_of {A W : Type} (r : A * W * list event) : A := fst (fst r).

Definition is_drop (e : event) : bool :=
  match e with EDropDatabase => true | _ => false end.

Definition is_connect (e : event) : bool :=
  match e with EConnect _ => true | _ => false end.

Definition is_stage_event (e : event) : bool :=
  match e with EBefore _ _ | EAggregate _ _ | EAfter _ _ => true | _ => false end.

Definition is_aggregate (e : event) : bool :=
  match e with EAggregate _ _ => true | _ => false end.

(** How many times [db.dropDatabase] is called. *)
Definition drop_count (t : list event) : nat := List.length (filter is_drop t).

(** How many times it is called before the completion callback first fires. *)
Fixpoint drops_before_done (t : list event) : nat :=
  match t with
  | [] => 0
  | EDone _ :: _ => 0
  | EDropDatabase :: rest => S (drops_before_done rest)
  | _ :: rest => drops_before_done rest
  end.

(** What the completion callback is given, call after call. *)
Fixpoint reports (t : list event) : list (option error) :=
  match t with
  | [] => []
  | EDone err :: rest => err :: reports rest
  | _ :: rest => reports rest
  end.

(** Whether a store is acquired. *)
Definition acquired (t : list event) : bool := existsb is_connect t.

(** The calls of the hooks and the submissions to the engine. *)
Definition stage_trace (t : list event) : list event := filter is_stage_event t.

Definition submissions (t : list event) : list event := filter is_aggregate t.

(** The error [debug] reports for its [data] and [query] arguments. *)
Definition validation_error (data query : value) : option error :=
  if negb (isArray data) && negb (truthy data && js_type_eqb (typeof data) TObject)
  then Some (Error "Invalid `data`")
  else if negb (isArray query) then Some (Error "Invalid `query`")
  else None.


(** One sub-pipeline accepted by the engine, between its two hooks. *)
Definition stage_round (mongo : engine) (collection : string)
           (part results : nat -> list value) (i : nat) : list event :=
  [EBefore (part i) i; EAggregate collection (part i); EAfter (results i) i].

(** The sub-pipeline an entry of [output] records. *)
Definition recorded_query (entry : value) : value := get_prop entry "query".

(** A string without the separator of [generateDatabaseName]. *)
Fixpoint no_underscore (s : string) : bool :=
  match s with
  | EmptyString => true
  | String c rest => negb (Ascii.eqb c "_") && no_underscore rest
  end.

(** An event that is neither a drop nor a call of the callback. *)
Definition is_quiet (e : event) : bool :=
  match e with EDropDatabase | EDone _ => false | _ => true end.

(** What a session with a store does before the series ends or fails. *)
Definition session_prefix {Obs : Type} (mongo : engine) (docs query : list value)
           (w : world Obs) : list event :=
  EConnect (connection_url w) :: EInsert (collectionName (my w)) docs ::
    match insert_result mongo docs with
    | Some _ => []
    | None => stage_events mongo (collectionName (my w)) (parts_of query (doSkipStages w)) 0
    end.

(** ... and how it ends. *)
Definition session_suffix {Obs : Type} (mongo : engine) (docs query : list value)
           (w : world Obs) : list event :=
  match processing_error mongo docs (parts_of query (doSkipStages w)) with
  | Some e => done_events mongo (Some e)
  | None => EDropDatabase :: done_events mongo (drop_result mongo DropInSeries)
  end.

(** The errors the completion callback is given. *)
Fixpoint errors_reported (t : list event) : list error :=
  match t with
  | [] => []
  | EDone (Some e) :: rest => e :: errors_reported rest
  | _ :: rest => errors_reported rest
  end.

(** The stores the session connects to. *)
Fixpoint connects (t : list event) : list string :=
  match t with
  | [] => []
  | EConnect url :: rest => url :: connects rest
  | _ :: rest => connects rest
  end.

(* ------------------------------------------------------------------ *)
(** *** Sample drivers and worlds *)

Definition sample_world {Obs : Type} (s : Obs) : world Obs :=
  {| obs := s;
     doSkipStages := false;
     my := mongoAggregationDebugger no_options;
     pid := 4242;
     clock := 1436100000000 |}.

(** A driver that accepts everything; sub-pipeline [i] yields one record. *)
Definition healthy : engine :=
  {| connect_result := fun _ => None;
     insert_result := fun _ => None;
     aggregate_result := fun i _ => inr [VNum (Z.of_nat i)];
     drop_result := fun _ => None |}.

Definition seeding_fails : engine :=
  {| connect_result := fun _ => None;
     insert_result := fun _ => Some (Error "insert failed");
     aggregate_result := fun i _ => inr [VNum (Z.of_nat i)];
     drop_result := fun _ => None |}.

Definition seeding_and_cleanup_fail : engine :=
  {| connect_result := fun _ => None;
     insert_result := fun _ => Some (Error "insert failed");
     aggregate_result := fun i _ => inr [VNum (Z.of_nat i)];
     drop_result := fun _ => Some (Error "drop failed") |}.

Definition teardown_fails : engine :=
  {| connect_result := fun _ => None;
     insert_result := fun _ => None;
     aggregate_result := fun i _ => inr [VNum (Z.of_nat i)];
     drop_result := fun site =>
       match site with
       | DropInSeries => Some (Error "drop failed")
       | DropOnError => None
       end |}.

Definition sample_docs : value :=
  VArr [VObj [("foo", VStr "bar"); ("test", VBool true)]].

Definition sample_query : list value :=
  [VObj [("$match", VObj [("test", VBool true)])];
   VObj [("$project", VObj [("foo", VNum 1)])]].

(** A caller that records what its callback is given. *)
Definition recording : arg (user_callback (list (option error * value))) :=
  Fn (fun err output calls => calls ++ [(err, output)]).

(* ------------------------------------------------------------------ *)
(** *** Further closed forms *)

(** A second call made before the connection callback of a first one
    runs: what the event loop does when the first answer arrives. *)
Definition overlapped {Obs : Type} (first second : M Obs (option (M Obs unit))) : M Obs unit :=
  bind first (fun pending => bind second (fun _ => run_pending pending)).

(** The entry of [output] for sub-pipeline [i]. *)
Definition stages_entry (part results : nat -> list value) (i : nat) : value :=
  VObj [("query", VArr (part i)); ("results", VArr (results i))].

(** What [log] prints for sub-pipeline [i]. *)
Definition log_lines (show : bool) (part results : nat -> list value) (i : nat)
  : list console_line :=
  LStage (i + 1) (first_key (last (part i) VUndefined)) ::
    (if show then [LQuery (part i); LResultsHeader] else []) ++
    [LInspect (results i); LBlank].

(** The callback [log] uses: the one given in the place of [options]
    when [cb] is absent. *)
Definition log_cb {U : Type} (options cb : arg (user_callback U)) : arg (user_callback U) :=
  if is_function options && is_undefined cb then options else cb.

(** More sample drivers. *)
Definition unreachable : engine :=
  {| connect_result := fun _ => Some (Error "ECONNREFUSED");
     insert_result := fun _ => None;
     aggregate_result := fun i _ => inr [VNum (Z.of_nat i)];
     drop_result := fun _ => None |}.

(** The second sub-pipeline is rejected. *)
Definition second_stage_fails : engine :=
  {| connect_result := fun _ => None;
     insert_result := fun _ => None;
     aggregate_result := fun i _ =>
       match i with
       | 1 => inl (Error "unknown operator")
       | _ => inr [VNum (Z.of_nat i)]
       end;
     drop_result := fun _ => None |}.

(** The effect of the two hooks of sub-pipeline [i] on the state of the
    hooks. *)
Definition round_effect {Obs : Type} (beforeEach afterEach : arg (hook Obs))
           (part results : nat -> list value) (s : Obs) (i : nat) : Obs :=
  hook_effect afterEach (results i) i (hook_effect beforeEach (part i) i s).

(** A driver whose answer depends on the pipeline only: it returns the
    number of its stages. *)
Definition stage_counter : engine :=
  {| connect_result := fun _ => None;
     insert_result := fun _ => None;
     aggregate_result := fun _ pipeline => inr [VNum (Z.of_nat (List.length pipeline))];
     drop_result := fun _ => None |}.

(* ------------------------------------------------------------------ *)
(** *** The closures of the public methods *)

(** A closure of a public method as an observer: the state it leaves
    when it returns.  It stands for the closure where the closure never
    throws. *)
Definition settle {Obs : Type} (c : method_callback Obs) : callback Obs :=
  fun err s =>
    match c err s with
    | Ok s' => s'
    | Throw _ => s
    end.

Definition lower {Obs : Type} (a : arg (method_callback Obs)) : arg (callback Obs) :=
  match a with
  | Fn c => Fn (settle c)
  | Val v => Val v
  end.

Definition never_throws {Obs : Type} (a : arg (method_callback Obs)) : Prop :=
  match a with
  | Fn c => forall err s, exists s', c err s = Ok s'
  | Val _ => True
  end.

(** The state of the caller after a public method called back with [err]
    and [output]: the method calls [default_callback cb], which is a
    function whatever [cb] is. *)
Definition delivered {U : Type} (cb : arg (user_callback U)) (err : option error)
           (output : value) (u : U) : U :=
  match call_user (default_callback cb) err output u with
  | Ok u' => u'
  | Throw _ => u
  end.

(* ================================================================== *)
(** ** Partitioning: the sub-pipelines are the prefixes *)

Lemma forEach_push {A B : Type} (f : A -> nat -> B) (l : list A) :
  forall (index : nat) (acc : list B),
    forEach_from (fun x i acc => acc ++ [f x i]) l index acc = acc ++ mapi_from f l index.
Proof.
  induction l as [| x rest IH]; intros index acc; cbn.
  - now rewrite app_nil_r.
  - rewrite IH. now rewrite <- app_assoc.
Qed.

Lemma nth_error_prefix_list (l : list value) (n k : nat) :
  k < n ->
  nth_error (map (fun i => firstn (S i) l) (seq 0 n)) k = Some (firstn (S k) l).
Proof.
  intros Hk. rewrite nth_error_map.
  rewrite (nth_error_nth' (seq 0 n) 0) by (now rewrite length_seq).
  rewrite seq_nth by exact Hk. reflexivity.
Qed.

Lemma partition_step_prefix (pre rest : list value) (x : value) :
  partition_step x (List.length pre)
    (Some (map (fun i => firstn (S i) (pre ++ x :: rest)) (seq 0 (List.length pre)))) =
  Some (map (fun i => firstn (S i) (pre ++ x :: rest)) (seq 0 (S (List.length pre)))).
Proof.
  unfold partition_step.
  rewrite seq_S, map_app. cbn [map Nat.add].
  assert (Hlast : firstn (S (List.length pre)) (pre ++ x :: rest) = pre ++ [x]).
  { replace (S (List.length pre)) with (List.length pre + 1) by lia.
    now rewrite firstn_app_2. }
  rewrite Hlast.
  destruct (Nat.eqb (List.length pre) 0) eqn:E.
  - apply Nat.eqb_eq in E. destruct pre; [reflexivity | discriminate E].
  - apply Nat.eqb_neq in E.
    rewrite nth_error_prefix_list by lia.
    replace (S (List.length pre - 1)) with (List.length pre + 0) by lia.
    rewrite firstn_app_2. cbn [firstn]. now rewrite app_nil_r.
Qed.

Lemma partition_from (rest : list value) :
  forall pre : list value,
    forEach_from partition_step rest (List.length pre)
      (Some (map (fun i => firstn (S i) (pre ++ rest)) (seq 0 (List.length pre)))) =
    Some (prefixes (pre ++ rest)).
Proof.
  induction rest as [| x rest IH]; intros pre.
  - cbn [forEach_from]. unfold prefixes. now rewrite app_nil_r.
  - cbn [forEach_from]. rewrite partition_step_prefix.
    specialize (IH (pre ++ [x])).
    rewrite <- app_assoc in IH. cbn [app] in IH.
    rewrite length_app in IH. cbn [List.length] in IH.
    replace (List.length pre + 1) with (S (List.length pre)) in IH by lia.
    exact IH.
Qed.

(** [partitionQuery] never throws and returns the prefixes (or the query
    itself when staging is skipped). *)
Lemma partitionQuery_eq (query : list value) (skipStages : bool) :
  partitionQuery query skipStages = Some (parts_of query skipStages).
Proof.
  unfold partitionQuery, parts_of. destruct skipStages; [reflexivity|].
  exact (partition_from query []).
Qed.

Lemma length_prefixes (query : list value) :
  List.length (prefixes query) = List.length query.
Proof. unfold prefixes. now rewrite length_map, length_seq. Qed.

Lemma nth_prefixes (query : list value) (i : nat) :
  i < List.length query ->
  nth i (prefixes query) [] = firstn (i + 1) query.
Proof.
  intros Hi. unfold prefixes.
  rewrite (nth_indep _ [] (firstn (S 0) query)) by (now rewrite length_map, length_seq).
  rewrite (map_nth (fun i => firstn (S i) query)).
  rewrite seq_nth by exact Hi. now replace (i + 1) with (S i) by lia.
Qed.

(* ================================================================== *)
(** ** The executor, step by step *)

(** The parts of [debug] at a caller's callback, by their names. *)
Ltac fold_total :=
  repeat match goal with
  | |- context [@call_cb_with ?O _ (@apply_callback ?O)] =>
      change (@call_cb_with O _ (@apply_callback O)) with (@call_cb O)
  | |- context [@series_done_with ?O ?m _ (@apply_callback ?O)] =>
      change (@series_done_with O m _ (@apply_callback O)) with (@series_done O m)
  | |- context [@connected_with ?O ?m _ (@apply_callback ?O)] =>
      change (@connected_with O m _ (@apply_callback O)) with (@connected O m)
  | |- context [@debug_checked_with ?O ?m _ (@apply_callback ?O)] =>
      change (@debug_checked_with O m _ (@apply_callback O)) with (@debug_checked O m)
  end.

Section Executor_facts.

Variable Obs : Type.
Variable mongo : engine.

Local Abbreviation M := (M Obs).
Local Abbreviation world := (world Obs).

Lemma set_obs_same (w : world) : set_obs (obs w) w = w.
Proof. destruct w; reflexivity. Qed.

Lemma default_hook_function (h : arg (hook Obs)) : is_function (default_hook h) = true.
Proof.
  unfold default_hook. destruct (is_function h) eqn:E; [exact E | reflexivity].
Qed.

Lemma call_function {F} (ev : event) (f : arg F) (app : F -> Obs -> Obs) (w : world) :
  is_function f = true ->
  call ev f (fun g s => Ok (app g s)) w = (Ok tt, set_obs (effect f app (obs w)) w, [ev]).
Proof.
  intros Hf. destruct f as [g | v].
  - reflexivity.
  - destruct v; try discriminate Hf. cbn. now rewrite set_obs_same.
Qed.


Lemma call_cb_function (cb : arg (callback Obs)) (err : option error) (w : world) :
  is_function cb = true ->
  call_cb cb err w = (Ok tt, set_obs (cb_effect cb err (obs w)) w, [EDone err]).
Proof.
  intros Hf. unfold call_cb, call_cb_with, apply_callback.
  exact (@call_function (callback Obs) (EDone err) cb (fun g => g err) w Hf).
Qed.

Lemma bind_ok {A B} (m : M A) (k : A -> M B) (w w1 : world) (a : A) (t1 : list event) :
  m w = (Ok a, w1, t1) ->
  bind m k w = (fst (fst (k a w1)), snd (fst (k a w1)), t1 ++ snd (k a w1)).
Proof.
  intros Hm. unfold bind. rewrite Hm. destruct (k a w1) as [[r w2] t2]. reflexivity.
Qed.


Section Stage_tasks.

Variables beforeEach afterEach : arg (hook Obs).
Variable collection : string.
Hypothesis before_function : is_function beforeEach = true.
Hypothesis after_function : is_function afterEach = true.

Lemma stage_task_eq (queryPart : list value) (index : nat) (w : world) :
  stage_task mongo beforeEach afterEach collection queryPart index w =
  match aggregate_result mongo index queryPart with
  | inl e =>
      (Ok (Some e), set_obs (hook_effect beforeEach queryPart index (obs w)) w,
       [EBefore queryPart index; EAggregate collection queryPart])
  | inr results =>
      (Ok None,
       set_obs (hook_effect afterEach results index
                  (hook_effect beforeEach queryPart index (obs w))) w,
       [EBefore queryPart index; EAggregate collection queryPart; EAfter results index])
  end.
Proof.
  unfold stage_task.
  erewrite bind_ok by (apply call_function; exact before_function).
  cbn. destruct (aggregate_result mongo index queryPart) as [e | results].
  - reflexivity.
  - cbn. erewrite bind_ok by (apply call_function; exact after_function). reflexivity.
Qed.

Lemma async_series_stages (parts : list (list value)) :
  forall (index : nat) (rest : list (M (option error))) (w : world),
    async_series
      (mapi_from (stage_task mongo beforeEach afterEach collection) parts index ++ rest) w =
    match stage_error mongo parts index with
    | Some e =>
        (Ok (Some e), set_obs (stage_obs mongo beforeEach afterEach parts index (obs w)) w,
         stage_events mongo collection parts index)
    | None =>
        let w' := set_obs (stage_obs mongo beforeEach afterEach parts index (obs w)) w in
        (fst (fst (async_series rest w')), snd (fst (async_series rest w')),
         stage_events mongo collection parts index ++ snd (async_series rest w'))
    end.
Proof.
  induction parts as [| queryPart parts IH]; intros index rest w.
  - simpl. rewrite set_obs_same. now destruct (async_series rest w) as [[r w'] t].
  - simpl mapi_from. simpl app. simpl async_series. simpl stage_error.
    simpl stage_obs. simpl stage_events.
    unfold bind at 1. rewrite stage_task_eq.
    destruct (aggregate_result mongo index queryPart) as [e | results].
    + reflexivity.
    + rewrite IH. cbn [obs set_obs].
      destruct (stage_error mongo parts (S index)); reflexivity.
Qed.

(** The whole series: seeding, the stage tasks, the teardown. *)
Lemma series_eq (docs : list value) (parts : list (list value)) (w : world) :
  async_series
    (forEach (fun queryPart index series =>
                series ++ [stage_task mongo beforeEach afterEach collection queryPart index])
             parts [insert_task mongo collection docs]
     ++ [dropDatabase_task mongo]) w =
  (Ok (series_error mongo docs parts),
   set_obs (series_obs mongo beforeEach afterEach docs parts (obs w)) w,
   series_events mongo collection docs parts).
Proof.
  unfold forEach. rewrite forEach_push. rewrite <- app_assoc.
  change ([insert_task mongo collection docs] ++ ?l) with (insert_task mongo collection docs :: l).
  unfold series_error, processing_error, series_obs, series_events.
  simpl async_series. unfold bind at 1. unfold insert_task, bind, emit, ret.
  destruct (insert_result mongo docs) as [e |].
  - cbn. now rewrite set_obs_same.
  - rewrite async_series_stages.
    destruct (stage_error mongo parts 0) as [e |].
    + cbn. now rewrite app_nil_r.
    + cbn. destruct (drop_result mongo DropInSeries); reflexivity.
Qed.

End Stage_tasks.

Lemma series_done_eq (cb : arg (callback Obs)) (err : option error) (w : world) :
  is_function cb = true ->
  series_done mongo cb err w =
  (Ok tt, set_obs (done_obs mongo cb err (obs w)) w, done_events mongo err).
Proof.
  intros Hcb. unfold series_done, series_done_with, done_obs, done_events.
  destruct cb as [f | v]; [| destruct v; try discriminate Hcb];
    destruct err as [e |]; cbn; rewrite ?set_obs_same; reflexivity.
Qed.

Lemma host_default_same (w : world) :
  (if negb (truthy_string (host (mongoParams (my w))))
   then set_my (set_host (host (defaultMongoParams (my w))) (my w)) w
   else w) = w.
Proof.
  destruct w as [o d m p c]. destruct m as [mp cn dn]. destruct mp as [h po u pw].
  cbn. destruct (negb (truthy_string h)); reflexivity.
Qed.

Lemma buildConnectionUrl_eq (w : world) :
  buildConnectionUrl w = (Ok (connection_url w), name_store w, []).
Proof.
  unfold buildConnectionUrl. unfold bind at 1. unfold modify at 1.
  rewrite host_default_same.
  unfold connection_url, name_store, store_name, base_url, generateDatabaseName.
  unfold bind, get, modify, ret.
  destruct (truthy_opt_string (debugDatabaseName (my w))); reflexivity.
Qed.

Lemma connected_ok (docs query : list value) (beforeEach afterEach : arg (hook Obs))
      (cb : arg (callback Obs)) (w : world) :
  is_function beforeEach = true ->
  is_function afterEach = true ->
  is_function cb = true ->
  connected mongo docs query beforeEach afterEach cb None w =
  let parts := parts_of query (doSkipStages w) in
  (Ok tt,
   set_obs (done_obs mongo cb (series_error mongo docs parts)
              (series_obs mongo beforeEach afterEach docs parts (obs w))) w,
   series_events mongo (collectionName (my w)) docs parts ++
   done_events mongo (series_error mongo docs parts)).
Proof.
  intros Hb Ha Hcb. unfold connected, connected_with. unfold bind at 1. unfold get at 1.
  rewrite partitionQuery_eq.
  erewrite bind_ok by (apply series_eq; assumption).
  fold_total. rewrite series_done_eq by exact Hcb. reflexivity.
Qed.

Lemma debug_checked_valid (data : value) (docs query : list value)
      (beforeEach afterEach : arg (hook Obs)) (cb : arg (callback Obs)) (w : world) :
  is_function cb = true ->
  normalise_data data = Some docs ->
  debug_checked mongo data (VArr query) beforeEach afterEach cb w =
  (Ok (Some (connected mongo docs query (default_hook beforeEach) (default_hook afterEach) cb
               (connect_result mongo (connection_url w)))),
   name_store w, [EConnect (connection_url w)]).
Proof.
  intros Hcb Hdata. unfold debug_checked, debug_checked_with.
  rewrite Hcb, Hdata. cbn [negb].
  unfold getMongoConnection.
  unfold bind. rewrite buildConnectionUrl_eq. reflexivity.
Qed.

Lemma debug_checked_invalid_data (data query : value)
      (beforeEach afterEach : arg (hook Obs)) (cb : arg (callback Obs)) (w : world) :
  is_function cb = true ->
  normalise_data data = None ->
  debug_checked mongo data query beforeEach afterEach cb w =
  (Ok None, set_obs (cb_effect cb (Some (Error "Invalid `data`")) (obs w)) w,
   [EDone (Some (Error "Invalid `data`"))]).
Proof.
  intros Hcb Hdata. unfold debug_checked, debug_checked_with.
  rewrite Hcb, Hdata. cbn [negb]. fold_total.
  erewrite bind_ok by (apply call_cb_function; exact Hcb). reflexivity.
Qed.

Lemma debug_checked_invalid_query (data query : value) (docs : list value)
      (beforeEach afterEach : arg (hook Obs)) (cb : arg (callback Obs)) (w : world) :
  is_function cb = true ->
  normalise_data data = Some docs ->
  isArray query = false ->
  debug_checked mongo data query beforeEach afterEach cb w =
  (Ok None, set_obs (cb_effect cb (Some (Error "Invalid `query`")) (obs w)) w,
   [EDone (Some (Error "Invalid `query`"))]).
Proof.
  intros Hcb Hdata Hquery. unfold debug_checked, debug_checked_with.
  rewrite Hcb, Hdata. cbn [negb]. fold_total.
  destruct query; try discriminate Hquery;
    (erewrite bind_ok by (apply call_cb_function; exact Hcb)); reflexivity.
Qed.

Lemma resolve_call_function {F} (skipStages cb cb' : arg F) (skip : bool) :
  resolve_call skipStages cb = Some (skip, cb') -> is_function cb' = true.
Proof.
  unfold resolve_call.
  destruct (is_function skipStages && is_undefined cb) eqn:E.
  - intros H. injection H as _ <-. now apply andb_prop in E.
  - destruct skipStages as [f | v]; try discriminate.
    destruct v; try discriminate.
    destruct (is_function cb) eqn:Hcb; [| discriminate].
    intros H. now injection H as _ <-.
Qed.

Lemma debug_resolved (data query : value) (beforeEach afterEach : arg (hook Obs))
      (skipStages cb cb' : arg (callback Obs)) (skip : bool) :
  resolve_call skipStages cb = Some (skip, cb') ->
  debug mongo data query beforeEach afterEach skipStages cb =
  bind (modify (set_doSkipStages skip))
       (fun _ => debug_checked mongo data query beforeEach afterEach cb').
Proof.
  unfold resolve_call, debug, debug_with. fold_total.
  destruct (is_function skipStages && is_undefined cb) eqn:E.
  - intros H. now injection H as <- <-.
  - destruct skipStages as [f | v]; try discriminate.
    destruct v; try discriminate.
    destruct (is_function cb) eqn:Hcb; [| discriminate].
    intros H. now injection H as <- <-.
Qed.

(** A session whose arguments are valid. *)
Lemma session_valid (data : value) (docs query : list value)
      (beforeEach afterEach : arg (hook Obs)) (skipStages cb cb' : arg (callback Obs))
      (skip : bool) (w : world) :
  resolve_call skipStages cb = Some (skip, cb') ->
  normalise_data data = Some docs ->
  run_session (debug mongo data (VArr query) beforeEach afterEach skipStages cb) w =
  let w1 := set_doSkipStages skip w in
  (Ok tt,
   set_obs (session_obs mongo beforeEach afterEach cb' docs query w1) (name_store w1),
   session_events mongo docs query w1).
Proof.
  intros Hcall Hdata.
  pose proof (resolve_call_function _ _ Hcall) as Hcb.
  rewrite (debug_resolved _ _ _ _ _ _ Hcall).
  unfold run_session. unfold bind at 1. unfold bind at 1. unfold modify at 1.
  erewrite debug_checked_valid by eassumption.
  cbn [run_pending app].
  unfold session_obs, session_events.
  destruct (connect_result mongo (connection_url (set_doSkipStages skip w))) as [e |].
  - unfold connected, connected_with. fold_total.
    rewrite call_cb_function by exact Hcb. reflexivity.
  - rewrite connected_ok by (try apply default_hook_function; exact Hcb).
    reflexivity.
Qed.

(** A session whose [data] is rejected. *)
Lemma session_invalid_data (data query : value)
      (beforeEach afterEach : arg (hook Obs)) (skipStages cb cb' : arg (callback Obs))
      (skip : bool) (w : world) :
  resolve_call skipStages cb = Some (skip, cb') ->
  normalise_data data = None ->
  run_session (debug mongo data query beforeEach afterEach skipStages cb) w =
  (Ok tt,
   set_obs (cb_effect cb' (Some (Error "Invalid `data`")) (obs w)) (set_doSkipStages skip w),
   [EDone (Some (Error "Invalid `data`"))]).
Proof.
  intros Hcall Hdata.
  pose proof (resolve_call_function _ _ Hcall) as Hcb.
  rewrite (debug_resolved _ _ _ _ _ _ Hcall).
  unfold run_session. unfold bind at 1. unfold bind at 1. unfold modify at 1.
  erewrite debug_checked_invalid_data by eassumption. reflexivity.
Qed.

(** A session whose [query] is rejected. *)
Lemma session_invalid_query (data query : value) (docs : list value)
      (beforeEach afterEach : arg (hook Obs)) (skipStages cb cb' : arg (callback Obs))
      (skip : bool) (w : world) :
  resolve_call skipStages cb = Some (skip, cb') ->
  normalise_data data = Some docs ->
  isArray query = false ->
  run_session (debug mongo data query beforeEach afterEach skipStages cb) w =
  (Ok tt,
   set_obs (cb_effect cb' (Some (Error "Invalid `query`")) (obs w)) (set_doSkipStages skip w),
   [EDone (Some (Error "Invalid `query`"))]).
Proof.
  intros Hcall Hdata Hquery.
  pose proof (resolve_call_function _ _ Hcall) as Hcb.
  rewrite (debug_resolved _ _ _ _ _ _ Hcall).
  unfold run_session. unfold bind at 1. unfold bind at 1. unfold modify at 1.
  erewrite debug_checked_invalid_query by eassumption. reflexivity.
Qed.

End Executor_facts.

(* ================================================================== *)
(** ** Facts on traces *)

Lemma drop_count_app (a b : list event) :
  drop_count (a ++ b) = drop_count a + drop_count b.
Proof. unfold drop_count. now rewrite filter_app, length_app. Qed.

Lemma stage_events_are_stage_events (mongo : engine) (collection : string)
      (parts : list (list value)) :
  forall index : nat,
    forallb is_stage_event (stage_events mongo collection parts index) = true.
Proof.
  induction parts as [| queryPart parts IH]; intros index; cbn.
  - reflexivity.
  - destruct (aggregate_result mongo index queryPart); cbn; [reflexivity | apply IH].
Qed.

Lemma stage_events_quiet (mongo : engine) (collection : string)
      (parts : list (list value)) (index : nat) :
  forallb is_quiet (stage_events mongo collection parts index) = true.
Proof.
  revert index. induction parts as [| queryPart parts IH]; intros index; cbn.
  - reflexivity.
  - destruct (aggregate_result mongo index queryPart); cbn; [reflexivity | apply IH].
Qed.

Ltac quiet_head e Hq He Hrest :=
  cbn in Hq; apply andb_prop in Hq as [He Hrest];
  destruct e; try discriminate He; cbn.

Lemma drop_count_quiet_app (a b : list event) :
  forallb is_quiet a = true -> drop_count (a ++ b) = drop_count b.
Proof.
  unfold drop_count. induction a as [| e a' IH]; intros Hq; [reflexivity|].
  quiet_head e Hq He Hrest; now apply IH.
Qed.

Lemma drops_before_done_quiet_app (a b : list event) :
  forallb is_quiet a = true -> drops_before_done (a ++ b) = drops_before_done b.
Proof.
  induction a as [| e a' IH]; intros Hq; [reflexivity|].
  quiet_head e Hq He Hrest; now apply IH.
Qed.

Lemma reports_quiet_app (a b : list event) :
  forallb is_quiet a = true -> reports (a ++ b) = reports b.
Proof.
  induction a as [| e a' IH]; intros Hq; [reflexivity|].
  quiet_head e Hq He Hrest; now apply IH.
Qed.

Lemma errors_reported_quiet_app (a b : list event) :
  forallb is_quiet a = true -> errors_reported (a ++ b) = errors_reported b.
Proof.
  induction a as [| e a' IH]; intros Hq; [reflexivity|].
  quiet_head e Hq He Hrest; now apply IH.
Qed.

Lemma stage_trace_stage_app (a b : list event) :
  forallb is_stage_event a = true -> stage_trace (a ++ b) = a ++ stage_trace b.
Proof.
  unfold stage_trace. intros Hs. rewrite filter_app. f_equal.
  induction a as [| e a' IH]; [reflexivity|].
  cbn in Hs. apply andb_prop in Hs as [He Ha].
  cbn. rewrite He. f_equal. now apply IH.
Qed.

Section Session_shape.

Variable Obs : Type.
Variable mongo : engine.

Lemma connection_url_doSkipStages (skip : bool) (w : world Obs) :
  connection_url (set_doSkipStages skip w) = connection_url w.
Proof. reflexivity. Qed.

Lemma session_prefix_quiet (docs query : list value) (w : world Obs) :
  forallb is_quiet (session_prefix mongo docs query w) = true.
Proof.
  unfold session_prefix. cbn.
  destruct (insert_result mongo docs); [reflexivity | apply stage_events_quiet].
Qed.

(** With a store, a session is its quiet prefix and then its end. *)
Lemma session_events_split (docs query : list value) (w : world Obs) :
  connect_result mongo (connection_url w) = None ->
  session_events mongo docs query w =
  session_prefix mongo docs query w ++ session_suffix mongo docs query w.
Proof.
  intros Hconn. unfold session_events, session_prefix, session_suffix.
  rewrite Hconn.
  unfold series_events, series_error, processing_error.
  destruct (insert_result mongo docs) as [e |]; [reflexivity|].
  destruct (stage_error mongo (parts_of query (doSkipStages w)) 0) as [e |].
  - rewrite app_nil_r. reflexivity.
  - simpl. rewrite <- app_assoc. reflexivity.
Qed.

(** The trace of a valid session that gets its store. *)
Lemma session_trace_with_store (data : value) (docs query : list value)
      (beforeEach afterEach : arg (hook Obs)) (skipStages cb cb' : arg (callback Obs))
      (skip : bool) (w : world Obs) :
  resolve_call skipStages cb = Some (skip, cb') ->
  normalise_data data = Some docs ->
  connect_result mongo (connection_url w) = None ->
  trace_of (run_session (debug mongo data (VArr query) beforeEach afterEach skipStages cb) w) =
  session_prefix mongo docs query (set_doSkipStages skip w) ++
  session_suffix mongo docs query (set_doSkipStages skip w).
Proof.
  intros Hcall Hdata Hconn.
  erewrite session_valid by eassumption.
  unfold trace_of. cbn [snd]. now apply session_events_split.
Qed.

End Session_shape.


(* ================================================================== *)
(** ** Release of the ephemeral store *)

(** C1, as stated, fails: a session whose [data] is rejected never calls
    [db.dropDatabase], and a session whose teardown step fails calls it
    twice (once in the series, once more in the final callback). *)
Lemma drop_not_always_once :
  drop_count
    (trace_of (run_session
       (debug healthy (VNum 3) (VArr sample_query) (Val VNull) (Val VNull)
              (Val (VBool false)) (Val (VFun "cb")))
       (sample_world tt))) = 0
  /\ reports
       (trace_of (run_session
          (debug healthy (VNum 3) (VArr sample_query) (Val VNull) (Val VNull)
                 (Val (VBool false)) (Val (VFun "cb")))
          (sample_world tt))) = [Some (Error "Invalid `data`")]
  /\ drop_count
       (trace_of (run_session
          (debug teardown_fails sample_docs (VArr sample_query) (Val VNull) (Val VNull)
                 (Val (VBool false)) (Val (VFun "cb")))
          (sample_world tt))) = 2.
Proof. repeat split; reflexivity. Qed.

(** C1 (amended): in every session that acquires its store (valid
    arguments, successful connection) and whose teardown step does not
    fail, whether the run succeeds or fails at seeding or at a
    sub-pipeline, [db.dropDatabase] is called exactly once, and that call
    precedes the first call of the completion callback. *)
Theorem drop_once_when_store_acquired
        (Obs : Type) (mongo : engine) (data : value) (docs query : list value)
        (beforeEach afterEach : arg (hook Obs)) (skipStages cb cb' : arg (callback Obs))
        (skip : bool) (w : world Obs) :
  resolve_call skipStages cb = Some (skip, cb') ->
  normalise_data data = Some docs ->
  connect_result mongo (connection_url w) = None ->
  drop_result mongo DropInSeries = None ->
  let t := trace_of (run_session
             (debug mongo data (VArr query) beforeEach afterEach skipStages cb) w) in
  drop_count t = 1 /\ drops_before_done t = 1 /\ reports t <> [].
Proof.
  intros Hcall Hdata Hconn Hdrop t. subst t.
  erewrite session_trace_with_store by eassumption.
  rewrite drop_count_quiet_app, drops_before_done_quiet_app, reports_quiet_app
    by apply session_prefix_quiet.
  unfold session_suffix. rewrite Hdrop.
  destruct (processing_error mongo docs (parts_of query (doSkipStages (set_doSkipStages skip w))));
    cbn; repeat split; discriminate.
Qed.

Lemma drop_once_when_store_acquired_witness :
  let t := trace_of (run_session
             (debug seeding_fails sample_docs (VArr sample_query) (Val VNull) (Val VNull)
                    (Val (VBool false)) (Val (VFun "cb")))
             (sample_world tt)) in
  drop_count t = 1 /\ drops_before_done t = 1 /\ reports t <> [].
Proof.
  apply (@drop_once_when_store_acquired unit seeding_fails sample_docs
           [VObj [("foo", VStr "bar"); ("test", VBool true)]] sample_query
           (Val VNull) (Val VNull) (Val (VBool false)) (Val (VFun "cb")) (Val (VFun "cb"))
           false (sample_world tt)); reflexivity.
Defined.

(* ================================================================== *)
(** ** What the completion callback is told *)

(** C2 at a failing input: seeding fails, and the completion callback is
    first called without an error (the error branch of the final callback
    of the series falls through to [db.close(); return cb();]), then a
    second time with the error. *)
Theorem failure_first_reported_as_success :
  reports
    (trace_of (run_session
       (debug seeding_fails sample_docs (VArr sample_query) (Val VNull) (Val VNull)
              (Val (VBool false)) (Val (VFun "cb")))
       (sample_world tt))) = [None; Some (Error "insert failed")]
  /\ snd (obs (world_of (run_session
            (stages seeding_fails sample_docs (VArr sample_query) recording)
            (sample_world ([], []))))) =
     [(None, VArr []); (Some (Error "insert failed"), VUndefined)].
Proof. split; reflexivity. Qed.

(** Whenever seeding or a sub-pipeline fails, the completion callback is
    called twice: first without an error, then with one. *)
Lemma reports_after_processing_failure
      (Obs : Type) (mongo : engine) (data : value) (docs query : list value)
      (beforeEach afterEach : arg (hook Obs)) (skipStages cb cb' : arg (callback Obs))
      (skip : bool) (w : world Obs) (e : error) :
  resolve_call skipStages cb = Some (skip, cb') ->
  normalise_data data = Some docs ->
  connect_result mongo (connection_url w) = None ->
  processing_error mongo docs (parts_of query skip) = Some e ->
  reports (trace_of (run_session
             (debug mongo data (VArr query) beforeEach afterEach skipStages cb) w)) =
  [None; js_or (drop_result mongo DropOnError) (Some e)].
Proof.
  intros Hcall Hdata Hconn Herr.
  erewrite session_trace_with_store by eassumption.
  rewrite reports_quiet_app by apply session_prefix_quiet.
  unfold session_suffix. cbn [doSkipStages set_doSkipStages]. rewrite Herr. reflexivity.
Qed.

(** C3, as stated, fails: seeding fails, the cleanup fails too, and the
    original error is never passed to the callback. *)
Lemma cleanup_error_masks_processing_error :
  let t := trace_of (run_session
             (debug seeding_and_cleanup_fail sample_docs (VArr sample_query)
                    (Val VNull) (Val VNull) (Val (VBool false)) (Val (VFun "cb")))
             (sample_world tt)) in
  errors_reported t = [Error "drop failed"]
  /\ ~ In (Some (Error "insert failed")) (reports t).
Proof.
  split; [reflexivity|].
  cbn. intros [H | [H | []]]; discriminate H.
Qed.

(** C3 (amended): when seeding or a sub-pipeline fails, exactly one error
    is passed to the completion callback: the cleanup error when the
    cleanup that follows fails too (it replaces the processing error),
    the processing error when the cleanup succeeds. *)
Theorem cleanup_error_takes_precedence
        (Obs : Type) (mongo : engine) (data : value) (docs query : list value)
        (beforeEach afterEach : arg (hook Obs)) (skipStages cb cb' : arg (callback Obs))
        (skip : bool) (w : world Obs) (e : error) :
  resolve_call skipStages cb = Some (skip, cb') ->
  normalise_data data = Some docs ->
  connect_result mongo (connection_url w) = None ->
  processing_error mongo docs (parts_of query skip) = Some e ->
  errors_reported (trace_of (run_session
     (debug mongo data (VArr query) beforeEach afterEach skipStages cb) w)) =
  [match drop_result mongo DropOnError with
   | Some cleanup_error => cleanup_error
   | None => e
   end].
Proof.
  intros Hcall Hdata Hconn Herr.
  erewrite session_trace_with_store by eassumption.
  rewrite errors_reported_quiet_app by apply session_prefix_quiet.
  unfold session_suffix. cbn [doSkipStages set_doSkipStages]. rewrite Herr.
  cbn. destruct (drop_result mongo DropOnError); reflexivity.
Qed.

Lemma cleanup_error_takes_precedence_witness :
  errors_reported (trace_of (run_session
     (debug seeding_and_cleanup_fail sample_docs (VArr sample_query)
            (Val VNull) (Val VNull) (Val (VBool false)) (Val (VFun "cb")))
     (sample_world tt))) = [Error "drop failed"].
Proof.
  apply (@cleanup_error_takes_precedence unit seeding_and_cleanup_fail sample_docs
           [VObj [("foo", VStr "bar"); ("test", VBool true)]] sample_query
           (Val VNull) (Val VNull) (Val (VBool false)) (Val (VFun "cb")) (Val (VFun "cb"))
           false (sample_world tt) (Error "insert failed")); reflexivity.
Defined.

(* ================================================================== *)
(** ** Validation and defaults *)

Lemma normalise_data_none (data : value) :
  negb (isArray data) && negb (truthy data && js_type_eqb (typeof data) TObject) = true ->
  normalise_data data = None.
Proof.
  destruct data; cbn; try reflexivity; try discriminate.
  - destruct b; cbn; [reflexivity | reflexivity].
  - destruct (negb (Z.eqb n 0)); reflexivity.
  - destruct (negb (String.eqb s "")); reflexivity.
Qed.

Lemma normalise_data_some (data : value) :
  negb (isArray data) && negb (truthy data && js_type_eqb (typeof data) TObject) = false ->
  exists docs, normalise_data data = Some docs.
Proof.
  destruct data; cbn; try discriminate; eauto.
  - destruct b; discriminate.
  - destruct (negb (Z.eqb n 0)); discriminate.
  - destruct (negb (String.eqb s "")); discriminate.
Qed.

(** A call that reaches the validation always returns. *)
Lemma session_total (Obs : Type) (mongo : engine) (data query : value)
      (beforeEach afterEach : arg (hook Obs)) (skipStages cb cb' : arg (callback Obs))
      (skip : bool) (w : world Obs) :
  resolve_call skipStages cb = Some (skip, cb') ->
  result_of (run_session (debug mongo data query beforeEach afterEach skipStages cb) w) = Ok tt.
Proof.
  intros Hcall.
  destruct (normalise_data data) as [docs |] eqn:Hdata.
  - destruct (isArray query) eqn:Hquery.
    + destruct query; try discriminate Hquery.
      erewrite session_valid by eassumption. reflexivity.
    + erewrite session_invalid_query by eassumption. reflexivity.
  - erewrite session_invalid_data by eassumption. reflexivity.
Qed.

(** C8, as stated, fails.  [debug] tests [data] with [Array.isArray] and
    never looks at the elements: the array [[1, 'a', null]] is not a
    sequence of records, yet it passes the validation, a store is acquired
    and the run reports success.  And a rejected call is not free of
    effects: the mode flag [doSkipStages] is written before [data] is
    looked at, so the rejected call below leaves it set. *)
Lemma validation_does_not_inspect_records :
  validation_error (VArr [VNum 1; VStr "a"; VNull]) (VArr sample_query) = None
  /\ acquired
       (trace_of (run_session
          (debug healthy (VArr [VNum 1; VStr "a"; VNull]) (VArr sample_query)
                 (Val VNull) (Val VNull) (Val (VBool false)) (Val (VFun "cb")))
          (sample_world tt))) = true
  /\ reports
       (trace_of (run_session
          (debug healthy (VArr [VNum 1; VStr "a"; VNull]) (VArr sample_query)
                 (Val VNull) (Val VNull) (Val (VBool false)) (Val (VFun "cb")))
          (sample_world tt))) = [None]
  /\ reports
       (trace_of (run_session
          (debug healthy (VNum 3) (VArr sample_query)
                 (Val VNull) (Val VNull) (Val (VBool true)) (Val (VFun "cb")))
          (sample_world tt))) = [Some (Error "Invalid `data`")]
  /\ doSkipStages (sample_world tt) = false
  /\ doSkipStages
       (world_of (run_session
          (debug healthy (VNum 3) (VArr sample_query)
                 (Val VNull) (Val VNull) (Val (VBool true)) (Val (VFun "cb")))
          (sample_world tt))) = true.
Proof. repeat split. Qed.

(** C8 (amended): when [data] is neither an array nor a truthy object, or
    [query] is not an array, the only thing the run does is call the
    completion callback with the validation error of that argument: no
    connection is requested, no driver operation is performed and the
    module state [my] is untouched.  A single object is not an error: the
    session runs on the one-element array that holds it.  An array is not
    an error either, whatever its elements are: the session runs on it as
    it is. *)
Theorem validation_precedes_acquisition
        (Obs : Type) (mongo : engine) (data query : value)
        (beforeEach afterEach : arg (hook Obs)) (skipStages cb cb' : arg (callback Obs))
        (skip : bool) (w : world Obs) (e : error) :
  resolve_call skipStages cb = Some (skip, cb') ->
  validation_error data query = Some e ->
  let r := run_session (debug mongo data query beforeEach afterEach skipStages cb) w in
  result_of r = Ok tt
  /\ trace_of r = [EDone (Some e)]
  /\ acquired (trace_of r) = false
  /\ my (world_of r) = my w
  /\ obs (world_of r) = cb_effect cb' (Some e) (obs w)
  /\ forall (fields : list (string * value)) (pipeline : list value),
       trace_of (run_session
         (debug mongo (VObj fields) (VArr pipeline) beforeEach afterEach skipStages cb) w) =
       session_events mongo [VObj fields] pipeline (set_doSkipStages skip w)
       /\ forall items : list value,
            trace_of (run_session
              (debug mongo (VArr items) (VArr pipeline) beforeEach afterEach skipStages cb) w) =
            session_events mongo items pipeline (set_doSkipStages skip w).
Proof.
  intros Hcall Herr r.
  assert (Hrun : r = (Ok tt, set_obs (cb_effect cb' (Some e) (obs w)) (set_doSkipStages skip w),
                      [EDone (Some e)])).
  { subst r. unfold validation_error in Herr.
    destruct (negb (isArray data) &&
              negb (truthy data && js_type_eqb (typeof data) TObject)) eqn:Hdata.
    - injection Herr as <-.
      apply session_invalid_data; [exact Hcall | now apply normalise_data_none].
    - destruct (normalise_data_some _ Hdata) as [docs Hdocs].
      destruct (negb (isArray query)) eqn:Hquery; [| discriminate Herr].
      injection Herr as <-.
      eapply session_invalid_query; [exact Hcall | exact Hdocs |].
      now apply negb_true_iff in Hquery. }
  rewrite Hrun. repeat split.
  - erewrite session_valid by (try exact Hcall; reflexivity). reflexivity.
  - intros items.
    erewrite session_valid by (try exact Hcall; reflexivity). reflexivity.
Qed.

Lemma validation_precedes_acquisition_witness :
  let r := run_session
             (debug healthy (VStr "records") (VArr sample_query) (Val VNull) (Val VNull)
                    (Val (VBool false)) (Val (VFun "cb")))
             (sample_world tt) in
  trace_of r = [EDone (Some (Error "Invalid `data`"))] /\ acquired (trace_of r) = false.
Proof.
  pose proof (@validation_precedes_acquisition unit healthy (VStr "records")
                (VArr sample_query) (Val VNull) (Val VNull)
                (Val (VBool false)) (Val (VFun "cb")) (Val (VFun "cb"))
                false (sample_world tt) (Error "Invalid `data`")
                eq_refl eq_refl) as H.
  cbv zeta in H. destruct H as (_ & Htrace & Hacq & _). split; assumption.
Defined.

Lemma default_hook_not_function (Obs : Type) (h : arg (hook Obs)) :
  is_function h = false -> default_hook h = Fn (@noop_hook Obs).
Proof. intros Hh. unfold default_hook. now rewrite Hh. Qed.

(** C9: a hook argument that is not a function is replaced by the no-op
    hook: the run is the run with the explicit no-op hook in its place,
    whatever the other hook is, and the run returns without throwing. *)
Theorem non_callable_hooks_are_noops
        (Obs : Type) (mongo : engine) (data query : value)
        (beforeEach afterEach other : arg (hook Obs))
        (skipStages cb cb' : arg (callback Obs)) (skip : bool) (w : world Obs) :
  is_function beforeEach = false ->
  is_function afterEach = false ->
  resolve_call skipStages cb = Some (skip, cb') ->
  run_session (debug mongo data query beforeEach other skipStages cb) w =
  run_session (debug mongo data query (Fn (@noop_hook Obs)) other skipStages cb) w
  /\ run_session (debug mongo data query other afterEach skipStages cb) w =
     run_session (debug mongo data query other (Fn (@noop_hook Obs)) skipStages cb) w
  /\ run_session (debug mongo data query beforeEach afterEach skipStages cb) w =
     run_session (debug mongo data query (Fn (@noop_hook Obs)) (Fn (@noop_hook Obs))
                        skipStages cb) w
  /\ result_of (run_session (debug mongo data query beforeEach afterEach skipStages cb) w)
     = Ok tt.
Proof.
  intros Hb Ha Hcall.
  assert (Hsame : forall b a b' a' : arg (hook Obs),
             default_hook b = default_hook b' ->
             default_hook a = default_hook a' ->
             debug mongo data query b a skipStages cb =
             debug mongo data query b' a' skipStages cb).
  { intros b a b' a' Eb Ea. unfold debug, debug_with, debug_checked_with.
    now rewrite Eb, Ea. }
  pose proof (@default_hook_not_function _ _ Hb) as Eb.
  pose proof (@default_hook_not_function _ _ Ha) as Ea.
  repeat split.
  - now rewrite (Hsame beforeEach other (Fn (@noop_hook Obs)) other).
  - now rewrite (Hsame other afterEach other (Fn (@noop_hook Obs))).
  - now rewrite (Hsame beforeEach afterEach (Fn (@noop_hook Obs)) (Fn (@noop_hook Obs))).
  - eapply session_total; eassumption.
Qed.

Lemma non_callable_hooks_are_noops_witness :
  run_session
    (debug healthy sample_docs (VArr sample_query) (Val VNull) (Val (VStr "after"))
           (Val (VBool false)) (Val (VFun "cb")))
    (sample_world tt) =
  run_session
    (debug healthy sample_docs (VArr sample_query) (Fn (@noop_hook unit)) (Fn (@noop_hook unit))
           (Val (VBool false)) (Val (VFun "cb")))
    (sample_world tt).
Proof.
  exact (proj1 (proj2 (proj2
    (@non_callable_hooks_are_noops unit healthy sample_docs (VArr sample_query)
       (Val VNull) (Val (VStr "after")) (Val VNull)
       (Val (VBool false)) (Val (VFun "cb")) (Val (VFun "cb")) false (sample_world tt)
       eq_refl eq_refl eq_refl)))).
Defined.

(* ================================================================== *)
(** ** The order of the hooks *)

Lemma stage_events_accepted (mongo : engine) (collection : string)
      (part results : nat -> list value) (n : nat) :
  forall k : nat,
    (forall i, k <= i < k + n -> aggregate_result mongo i (part i) = inr (results i)) ->
    stage_events mongo collection (map part (seq k n)) k =
      flat_map (stage_round mongo collection part results) (seq k n)
    /\ stage_error mongo (map part (seq k n)) k = None.
Proof.
  induction n as [| n IH]; intros k Hok.
  - split; reflexivity.
  - cbn [seq map stage_events stage_error flat_map].
    rewrite (Hok k) by lia.
    destruct (IH (S k)) as [Hev Herr].
    { intros i Hi. apply Hok. lia. }
    rewrite Hev, Herr. split; reflexivity.
Qed.

Lemma stage_trace_suffix (Obs : Type) (mongo : engine) (docs query : list value)
      (w : world Obs) :
  stage_trace (session_suffix mongo docs query w) = [].
Proof.
  unfold session_suffix.
  destruct (processing_error mongo docs (parts_of query (doSkipStages w))).
  - reflexivity.
  - destruct (drop_result mongo DropInSeries); reflexivity.
Qed.

(** C7: in cumulative mode, when the engine accepts the seeding and every
    sub-pipeline, the calls of the hooks and the submissions to the engine
    are, in this order: [beforeEach(part 0, 0)], submission of part 0,
    [afterEach(results 0, 0)], [beforeEach(part 1, 1)], ... up to
    [afterEach(results (N-1), N-1)], where part [i] is the first [i+1]
    stages: each sub-pipeline is submitted after its [beforeEach] and
    before its [afterEach], and the next one only after that. *)
Theorem hooks_fire_in_order
        (Obs : Type) (mongo : engine) (data : value) (docs query : list value)
        (beforeEach afterEach : arg (hook Obs)) (skipStages cb cb' : arg (callback Obs))
        (w : world Obs) (results : nat -> list value) :
  resolve_call skipStages cb = Some (false, cb') ->
  normalise_data data = Some docs ->
  connect_result mongo (connection_url w) = None ->
  insert_result mongo docs = None ->
  (forall i, i < List.length query ->
             aggregate_result mongo i (firstn (i + 1) query) = inr (results i)) ->
  stage_trace (trace_of (run_session
     (debug mongo data (VArr query) beforeEach afterEach skipStages cb) w)) =
  flat_map (fun i => [EBefore (firstn (i + 1) query) i;
                      EAggregate (collectionName (my w)) (firstn (i + 1) query);
                      EAfter (results i) i])
           (seq 0 (List.length query)).
Proof.
  intros Hcall Hdata Hconn Hinsert Hok.
  erewrite session_trace_with_store by eassumption.
  unfold session_prefix. rewrite Hinsert.
  cbn [doSkipStages set_doSkipStages my collectionName parts_of].
  destruct (@stage_events_accepted mongo (collectionName (my w))
              (fun i => firstn (S i) query) results (List.length query) 0) as [Hev _].
  { intros i Hi. replace (S i) with (i + 1) by lia. apply Hok. lia. }
  unfold prefixes. rewrite Hev.
  match goal with
  | |- stage_trace ((?c :: ?i :: ?l) ++ ?s) = _ =>
      change ((c :: i :: l) ++ s) with ([c; i] ++ (l ++ s))
  end.
  unfold stage_trace at 1. rewrite filter_app. cbn [filter is_stage_event app].
  fold (stage_trace
          (flat_map (stage_round mongo (collectionName (my w))
                       (fun i => firstn (S i) query) results) (seq 0 (List.length query))
           ++ session_suffix mongo docs query (set_doSkipStages false w))).
  rewrite stage_trace_stage_app.
  - rewrite stage_trace_suffix, app_nil_r.
    apply flat_map_ext. intros i. unfold stage_round.
    now replace (i + 1) with (S i) by lia.
  - rewrite <- Hev. apply stage_events_are_stage_events.
Qed.

Lemma hooks_fire_in_order_witness :
  stage_trace (trace_of (run_session
     (debug healthy sample_docs (VArr sample_query) (Val VNull) (Val VNull)
            (Val (VBool false)) (Val (VFun "cb")))
     (sample_world tt))) =
  [EBefore (firstn 1 sample_query) 0; EAggregate "documents" (firstn 1 sample_query);
   EAfter [VNum 0] 0;
   EBefore (firstn 2 sample_query) 1; EAggregate "documents" (firstn 2 sample_query);
   EAfter [VNum 1] 1].
Proof.
  apply (@hooks_fire_in_order unit healthy sample_docs
           [VObj [("foo", VStr "bar"); ("test", VBool true)]] sample_query
           (Val VNull) (Val VNull) (Val (VBool false)) (Val (VFun "cb")) (Val (VFun "cb"))
           (sample_world tt) (fun i => [VNum (Z.of_nat i)]));
    try reflexivity.
Defined.

(* ================================================================== *)
(** ** The public methods *)

Lemma run_session_modify (Obs : Type) (f : world Obs -> world Obs)
      (start : M Obs (option (M Obs unit))) (w : world Obs) :
  run_session (bind (modify f) (fun _ => start)) w = run_session start (f w).
Proof.
  unfold run_session, bind, modify.
  destruct (start (f w)) as [[[pending | e] w1] t1]; cbn.
  - destruct (run_pending pending w1) as [[r w2] t2]. reflexivity.
  - reflexivity.
Qed.

(* ------------------------------------------------------------------ *)
(** *** A closure that never throws is an observer *)

Section Lowering.

Variable Obs : Type.
Variable mongo : engine.

Lemma bind_ext {A B} (m : M Obs A) (k1 k2 : A -> M Obs B) (w : world Obs) :
  (forall a w', k1 a w' = k2 a w') -> bind m k1 w = bind m k2 w.
Proof.
  intros Hk. unfold bind. destruct (m w) as [[[a | e] w1] t1]; [| reflexivity].
  now rewrite Hk.
Qed.

Lemma bind_left_ext {A B} (m1 m2 : M Obs A) (k : A -> M Obs B) (w : world Obs) :
  m1 w = m2 w -> bind m1 k w = bind m2 k w.
Proof. intros Hm. unfold bind. now rewrite Hm. Qed.

Lemma run_session_ext (start1 start2 : M Obs (option (M Obs unit))) (w : world Obs) :
  start1 w = start2 w -> run_session start1 w = run_session start2 w.
Proof. intros H. unfold run_session. now apply bind_left_ext. Qed.

Lemma settle_ok (c : method_callback Obs) (err : option error) (s s' : Obs) :
  c err s = Ok s' -> settle c err s = s'.
Proof. intros H. unfold settle. now rewrite H. Qed.

Lemma is_function_lower (a : arg (method_callback Obs)) :
  is_function (lower a) = is_function a.
Proof. destruct a; reflexivity. Qed.

Lemma is_undefined_lower (a : arg (method_callback Obs)) :
  is_undefined (lower a) = is_undefined a.
Proof. destruct a; reflexivity. Qed.

Lemma call_cb_lowered (cb : arg (method_callback Obs)) (err : option error) (w : world Obs) :
  never_throws cb ->
  call_cb_with (@apply_method_callback Obs) cb err w = call_cb (lower cb) err w.
Proof.
  intros Hcb. destruct cb as [c | v].
  - destruct (Hcb err (obs w)) as [s' Hs].
    unfold call_cb, call_cb_with, call, lower, apply_callback, apply_method_callback,
      bind, emit, run_closure.
    now rewrite Hs, (settle_ok c err (obs w) Hs).
  - destruct v; reflexivity.
Qed.

Lemma series_done_lowered (cb : arg (method_callback Obs)) (err : option error)
      (w : world Obs) :
  never_throws cb ->
  series_done_with mongo (@apply_method_callback Obs) cb err w =
  series_done mongo (lower cb) err w.
Proof.
  intros Hcb. destruct cb as [c | v].
  - unfold series_done, series_done_with, call_cb, call_cb_with, call, lower,
      apply_callback, apply_method_callback.
    destruct err as [e |].
    + unfold bind, emit, ret, run_closure, run_pending. cbn.
      destruct (Hcb None (obs w)) as [s1 H1].
      rewrite H1, (settle_ok c None (obs w) H1). cbn.
      destruct (Hcb (js_or (drop_result mongo DropOnError) (Some e)) s1) as [s2 H2].
      now rewrite H2, (settle_ok c _ s1 H2).
    + unfold bind, emit, ret, run_closure, run_pending. cbn.
      destruct (Hcb None (obs w)) as [s1 H1].
      now rewrite H1, (settle_ok c None (obs w) H1).
  - destruct v; reflexivity.
Qed.

Lemma connected_lowered (docs query : list value) (beforeEach afterEach : arg (hook Obs))
      (cb : arg (method_callback Obs)) (err : option error) (w : world Obs) :
  never_throws cb ->
  connected_with mongo (@apply_method_callback Obs) docs query beforeEach afterEach cb err w =
  connected mongo docs query beforeEach afterEach (lower cb) err w.
Proof.
  intros Hcb. unfold connected, connected_with. fold (@call_cb Obs).
  destruct err as [e |]; [now apply call_cb_lowered|].
  apply bind_ext. intros w0 w'.
  destruct (partitionQuery query (doSkipStages w0)); [| reflexivity].
  apply bind_ext. intros err w''. now apply series_done_lowered.
Qed.

Lemma run_session_connect (k : option error -> M Obs unit) (w : world Obs) :
  run_session (bind (getMongoConnection mongo k) (fun pending => ret (Some pending))) w =
  (fst (fst (k (connect_result mongo (connection_url w)) (name_store w))),
   snd (fst (k (connect_result mongo (connection_url w)) (name_store w))),
   EConnect (connection_url w)
     :: snd (k (connect_result mongo (connection_url w)) (name_store w))).
Proof.
  unfold run_session, getMongoConnection. unfold bind.
  rewrite buildConnectionUrl_eq. cbn.
  destruct (k (connect_result mongo (connection_url w)) (name_store w)) as [[r w1] t1].
  reflexivity.
Qed.

Lemma debug_checked_lowered (data query : value) (beforeEach afterEach : arg (hook Obs))
      (cb : arg (method_callback Obs)) (w : world Obs) :
  never_throws cb ->
  run_session (debug_checked_with mongo (@apply_method_callback Obs)
                 data query beforeEach afterEach cb) w =
  run_session (debug_checked mongo data query beforeEach afterEach (lower cb)) w.
Proof.
  intros Hcb. unfold debug_checked, debug_checked_with. fold (@call_cb Obs).
  rewrite is_function_lower.
  destruct (negb (is_function cb)); [reflexivity|].
  assert (Hreport : forall e,
    run_session (bind (call_cb_with (@apply_method_callback Obs) cb (Some e))
                      (fun _ => ret None)) w =
    run_session (bind (call_cb (lower cb) (Some e)) (fun _ => ret None)) w).
  { intros e. apply run_session_ext. apply bind_left_ext.
    now apply call_cb_lowered. }
  destruct (normalise_data data) as [docs |]; [| apply Hreport].
  destruct query; try apply Hreport.
  rewrite !run_session_connect. now rewrite !connected_lowered by exact Hcb.
Qed.

(** A session whose completion callback is a closure that never throws
    is the session of [debug] with that closure as an observer. *)
Lemma debug_lowered (data query : value) (beforeEach afterEach : arg (hook Obs))
      (skipStages cb : arg (method_callback Obs)) (w : world Obs) :
  never_throws skipStages ->
  never_throws cb ->
  run_session (debug_with mongo (@apply_method_callback Obs)
                 data query beforeEach afterEach skipStages cb) w =
  run_session (debug mongo data query beforeEach afterEach (lower skipStages) (lower cb)) w.
Proof.
  intros Hskip Hcb. unfold debug, debug_with. fold (@call_cb Obs).
  rewrite is_function_lower, is_undefined_lower.
  destruct (is_function skipStages && is_undefined cb).
  - rewrite !run_session_modify. now apply debug_checked_lowered.
  - assert (Hreport : forall e,
      run_session (bind (call_cb_with (@apply_method_callback Obs) cb (Some e))
                        (fun _ => ret None)) w =
      run_session (bind (call_cb (lower cb) (Some e)) (fun _ => ret None)) w).
    { intros e. apply run_session_ext. apply bind_left_ext.
      now apply call_cb_lowered. }
    destruct skipStages as [c | v]; [apply Hreport|].
    destruct v; try apply Hreport.
    cbn [lower]. rewrite !run_session_modify. now apply debug_checked_lowered.
Qed.

End Lowering.

(* ------------------------------------------------------------------ *)
(** *** The closures of the public methods never throw *)

Section Guarded.

Variable U : Type.
Variable cb : arg (user_callback U).

Lemma call_user_guarded (err : option error) (output : value) (u : U) :
  call_user (default_callback cb) err output u = Ok (delivered cb err output u).
Proof.
  unfold delivered, default_callback.
  destruct cb as [f | v]; [reflexivity|]. destruct v; reflexivity.
Qed.

(** Without the replacement the call throws: this is what the test
    [typeof cb !== 'function'] of the public methods prevents. *)
Lemma call_user_not_function (err : option error) (output : value) (u : U) :
  is_function cb = false -> call_user cb err output u = Throw TypeError.
Proof. destruct cb as [f | v]; [discriminate|]. destruct v; now try discriminate. Qed.

Lemma stages_callback_not_function (err : option error) (s : list value * U) :
  is_function cb = false -> stages_callback cb err s = Throw TypeError.
Proof.
  intros Hcb. unfold stages_callback.
  destruct err; now rewrite call_user_not_function.
Qed.

Lemma exec_callback_not_function (err : option error) (s : value * U) :
  is_function cb = false -> exec_callback cb err s = Throw TypeError.
Proof.
  intros Hcb. unfold exec_callback.
  destruct err; now rewrite call_user_not_function.
Qed.

Lemma delivered_function (f : user_callback U) (err : option error) (output : value) (u : U) :
  cb = Fn f -> delivered cb err output u = f err output u.
Proof. intros ->. reflexivity. Qed.

Lemma stages_callback_guarded (err : option error) (s : list value * U) :
  stages_callback (default_callback cb) err s =
  Ok (fst s,
      match err with
      | Some e => delivered cb (Some e) VUndefined (snd s)
      | None => delivered cb None (VArr (fst s)) (snd s)
      end).
Proof. unfold stages_callback. destruct err; now rewrite call_user_guarded. Qed.

Lemma exec_callback_guarded (err : option error) (s : value * U) :
  exec_callback (default_callback cb) err s =
  Ok (fst s,
      match err with
      | Some e => delivered cb (Some e) VUndefined (snd s)
      | None => delivered cb None (fst s) (snd s)
      end).
Proof. unfold exec_callback. destruct err; now rewrite call_user_guarded. Qed.

Lemma log_callback_guarded (err : option error) (s : list console_line * U) :
  log_callback (default_callback cb) err s =
  Ok (match err with
      | Some e => (fst s, delivered cb (Some e) VUndefined (snd s))
      | None => (fst s ++ [LEnd], delivered cb None VUndefined (snd s))
      end).
Proof.
  unfold log_callback, print. destruct err; cbn [fst snd]; now rewrite call_user_guarded.
Qed.

Lemma stages_settled (err : option error) (s : list value * U) :
  settle (stages_callback (default_callback cb)) err s =
  (fst s,
   match err with
   | Some e => delivered cb (Some e) VUndefined (snd s)
   | None => delivered cb None (VArr (fst s)) (snd s)
   end).
Proof. apply settle_ok, stages_callback_guarded. Qed.

Lemma exec_settled (err : option error) (s : value * U) :
  settle (exec_callback (default_callback cb)) err s =
  (fst s,
   match err with
   | Some e => delivered cb (Some e) VUndefined (snd s)
   | None => delivered cb None (fst s) (snd s)
   end).
Proof. apply settle_ok, exec_callback_guarded. Qed.

Lemma log_settled (err : option error) (s : list console_line * U) :
  settle (log_callback (default_callback cb)) err s =
  match err with
  | Some e => (fst s, delivered cb (Some e) VUndefined (snd s))
  | None => (fst s ++ [LEnd], delivered cb None VUndefined (snd s))
  end.
Proof. apply settle_ok, log_callback_guarded. Qed.

Lemma stages_never_throws : never_throws (Fn (stages_callback (default_callback cb))).
Proof. intros err s. eexists. apply stages_callback_guarded. Qed.

Lemma exec_never_throws : never_throws (Fn (exec_callback (default_callback cb))).
Proof. intros err s. eexists. apply exec_callback_guarded. Qed.

Lemma log_never_throws : never_throws (Fn (log_callback (default_callback cb))).
Proof. intros err s. eexists. apply log_callback_guarded. Qed.

End Guarded.

Section Exec_facts.

Variable U : Type.
Variable mongo : engine.

(** [exec] is [debug] in skip mode from the world where [output] is
    [undefined]. *)
Lemma exec_session (data : value) (docs query : list value)
      (cb : arg (user_callback U)) (w : world (value * U)) :
  normalise_data data = Some docs ->
  run_session (exec mongo data (VArr query) cb) w =
  let w1 := set_doSkipStages true (set_obs (VUndefined, snd (obs w)) w) in
  (Ok tt,
   set_obs (session_obs mongo (Val VNull) (Fn (@exec_afterEach U))
              (Fn (settle (exec_callback (default_callback cb)))) docs query w1)
           (name_store w1),
   session_events mongo docs query w1).
Proof.
  intros Hdata. unfold exec. rewrite run_session_modify.
  rewrite debug_lowered by (try apply exec_never_throws; exact I). cbn [lower].
  erewrite session_valid by (try exact Hdata; reflexivity). reflexivity.
Qed.

End Exec_facts.

(** C6: whatever the records and the pipeline, once the store is acquired
    and seeded [exec] submits exactly one sub-pipeline to the engine, the
    whole pipeline; and when the engine answers it with [results] and the
    teardown succeeds, the completion callback is called once, as
    [cb(null, results)]. *)
Theorem exec_runs_the_whole_pipeline_once
        (U : Type) (mongo : engine) (data : value) (docs query : list value)
        (cb : arg (user_callback U)) (w : world (value * U)) :
  normalise_data data = Some docs ->
  connect_result mongo (connection_url w) = None ->
  insert_result mongo docs = None ->
  let r := run_session (exec mongo data (VArr query) cb) w in
  submissions (trace_of r) = [EAggregate (collectionName (my w)) query]
  /\ forall results : list value,
       aggregate_result mongo 0 query = inr results ->
       drop_result mongo DropInSeries = None ->
       reports (trace_of r) = [None]
       /\ obs (world_of r) =
          (VArr results, delivered cb None (VArr results) (snd (obs w))).
Proof.
  intros Hdata Hconn Hinsert r. subst r.
  erewrite exec_session by exact Hdata. cbv zeta.
  unfold trace_of, world_of. cbn [fst snd].
  unfold session_events, session_obs.
  change (connection_url (set_doSkipStages true (set_obs (VUndefined, snd (obs w)) w)))
    with (connection_url w).
  rewrite Hconn.
  cbn [doSkipStages set_doSkipStages parts_of my set_obs collectionName].
  unfold series_events, series_error, series_obs, processing_error.
  rewrite Hinsert. cbn [stage_events stage_error stage_obs].
  split.
  - destruct (aggregate_result mongo 0 query) as [e | results].
    + reflexivity.
    + destruct (drop_result mongo DropInSeries); reflexivity.
  - intros results Hagg Hdrop. rewrite Hagg, Hdrop.
    split; [reflexivity|].
    unfold done_obs, cb_effect, effect. now rewrite exec_settled.
Qed.

Lemma exec_runs_the_whole_pipeline_once_witness :
  let r := run_session (exec healthy sample_docs (VArr sample_query) recording)
                       (sample_world (VNull, [])) in
  submissions (trace_of r) = [EAggregate "documents" sample_query]
  /\ obs (world_of r) = (VArr [VNum 0], [(None, VArr [VNum 0])]).
Proof.
  destruct (@exec_runs_the_whole_pipeline_once _ healthy sample_docs
              [VObj [("foo", VStr "bar"); ("test", VBool true)]] sample_query
              recording (sample_world (VNull, [])) eq_refl eq_refl eq_refl)
    as [Hsub Hres].
  split; [exact Hsub|].
  exact (proj2 (Hres [VNum 0] eq_refl eq_refl)).
Defined.

Lemma array_get_last (l : list value) (x : value) :
  array_get (l ++ [x]) (List.length l) = x.
Proof. unfold array_get. apply nth_middle. Qed.

Lemma array_set_last (l : list value) (x y : value) :
  array_set (l ++ [x]) (List.length l) y = l ++ [y].
Proof.
  induction l as [| z l IH]; cbn; [reflexivity|]. now rewrite IH.
Qed.

Section Stages_facts.

Variable U : Type.
Variable mongo : engine.

(** What the hooks of [stages] leave in [output] when every sub-pipeline
    is accepted: one entry per sub-pipeline, which records it. *)
Lemma stages_output (parts : list (list value)) :
  forall (k : nat) (output : list value) (u : U),
    List.length output = k ->
    stage_error mongo parts k = None ->
    snd (stage_obs mongo (Fn (@stages_beforeEach U)) (Fn (@stages_afterEach U))
           parts k (output, u)) = u
    /\ map recorded_query
         (fst (stage_obs mongo (Fn (@stages_beforeEach U)) (Fn (@stages_afterEach U))
                 parts k (output, u))) =
       map recorded_query output ++ map VArr parts.
Proof.
  induction parts as [| queryPart parts IH]; intros k output u Hlen Herr.
  - cbn. now rewrite app_nil_r.
  - cbn [stage_obs stage_error] in *.
    destruct (aggregate_result mongo k queryPart) as [e | results]; [discriminate Herr|].
    unfold hook_effect, effect, stages_beforeEach, stages_afterEach. cbn [fst snd].
    subst k. rewrite array_get_last. cbn [truthy set_prop upsert String.eqb Ascii.eqb].
    rewrite array_set_last.
    cbn [Bool.eqb].
    specialize (IH (S (List.length output))
                   (output ++ [VObj [("query", VArr queryPart); ("results", VArr results)]]) u).
    destruct IH as [IHu IHq].
    + rewrite length_app. cbn. lia.
    + exact Herr.
    + split; [exact IHu|].
      etransitivity; [exact IHq|].
      rewrite map_app. cbn [map]. rewrite <- app_assoc. reflexivity.
Qed.

Lemma stages_session (data : value) (docs query : list value)
      (cb : arg (user_callback U)) (w : world (list value * U)) :
  normalise_data data = Some docs ->
  run_session (stages mongo data (VArr query) cb) w =
  let w1 := set_doSkipStages false (set_obs ([], snd (obs w)) w) in
  (Ok tt,
   set_obs (session_obs mongo (Fn (@stages_beforeEach U)) (Fn (@stages_afterEach U))
              (Fn (settle (stages_callback (default_callback cb)))) docs query w1)
           (name_store w1),
   session_events mongo docs query w1).
Proof.
  intros Hdata. unfold stages. rewrite run_session_modify.
  rewrite debug_lowered by (try apply stages_never_throws; exact I). cbn [lower].
  erewrite session_valid by (try exact Hdata; reflexivity). reflexivity.
Qed.

End Stages_facts.

(** C4: for a pipeline of [N] stages, when the store is acquired and the
    engine accepts the seeding, every sub-pipeline and the teardown,
    [stages] calls the completion callback once, as [cb(null, output)],
    where [output] has exactly [N] entries and entry [i] records the first
    [i+1] stages of the pipeline, in order; for the empty pipeline
    [output] is empty and no error is reported. *)
Theorem stages_records_every_prefix
        (U : Type) (mongo : engine) (data : value) (docs query : list value)
        (cb : arg (user_callback U)) (w : world (list value * U)) :
  normalise_data data = Some docs ->
  connect_result mongo (connection_url w) = None ->
  series_error mongo docs (prefixes query) = None ->
  let r := run_session (stages mongo data (VArr query) cb) w in
  exists output : list value,
    obs (world_of r) = (output, delivered cb None (VArr output) (snd (obs w)))
    /\ reports (trace_of r) = [None]
    /\ List.length output = List.length query
    /\ (forall i, i < List.length query ->
                  get_prop (nth i output VUndefined) "query" = VArr (firstn (i + 1) query))
    /\ (query = [] -> output = []).
Proof.
  intros Hdata Hconn Hseries r. subst r.
  erewrite stages_session by exact Hdata. cbv zeta.
  unfold trace_of, world_of. cbn [fst snd].
  unfold session_events, session_obs.
  change (connection_url (set_doSkipStages false (set_obs ([], snd (obs w)) w)))
    with (connection_url w).
  rewrite Hconn.
  cbn [doSkipStages set_doSkipStages parts_of my set_obs collectionName obs].
  rewrite Hseries.
  unfold series_error, processing_error in Hseries.
  unfold series_events, series_obs.
  destruct (insert_result mongo docs) as [e |]; [discriminate Hseries|].
  destruct (stage_error mongo (prefixes query) 0) as [e |] eqn:Hstage; [discriminate Hseries|].
  destruct (@stages_output U mongo (prefixes query) 0 [] (snd (obs w)) eq_refl Hstage)
    as [Hu Hq].
  change (default_hook (Fn (@stages_beforeEach U))) with (Fn (@stages_beforeEach U)).
  change (default_hook (Fn (@stages_afterEach U))) with (Fn (@stages_afterEach U)).
  set (s := stage_obs mongo (Fn (@stages_beforeEach U)) (Fn (@stages_afterEach U))
                      (prefixes query) 0 ([], snd (obs w))) in *.
  change (map recorded_query [] ++ map VArr (prefixes query))
    with (map VArr (prefixes query)) in Hq.
  assert (Hlen : List.length (fst s) = List.length query).
  { pose proof (f_equal (@List.length value) Hq) as Hl.
    rewrite !length_map in Hl. rewrite Hl. apply length_prefixes. }
  exists (fst s). repeat split.
  - unfold done_obs, cb_effect, effect. rewrite stages_settled, Hu. reflexivity.
  - simpl. rewrite <- app_assoc, reports_quiet_app by apply stage_events_quiet.
    reflexivity.
  - exact Hlen.
  - intros i Hi.
    change (get_prop (nth i (fst s) VUndefined) "query")
      with (recorded_query (nth i (fst s) VUndefined)).
    rewrite <- (map_nth recorded_query), Hq.
    rewrite (nth_indep _ _ (VArr [])) by (rewrite length_map, length_prefixes; exact Hi).
    rewrite (map_nth VArr). now rewrite nth_prefixes.
  - intros ->. destruct (fst s); [reflexivity | discriminate Hlen].
Qed.

Lemma stages_records_every_prefix_witness :
  exists output : list value,
    obs (world_of (run_session (stages healthy sample_docs (VArr sample_query) recording)
                               (sample_world ([VNull], [])))) =
    (output, [(None, VArr output)])
    /\ List.length output = 2.
Proof.
  destruct (@stages_records_every_prefix _ healthy sample_docs
              [VObj [("foo", VStr "bar"); ("test", VBool true)]] sample_query
              recording (sample_world ([VNull], [])) eq_refl eq_refl eq_refl)
    as (output & Hobs & _ & Hlen & _).
  exists output. split; [exact Hobs | exact Hlen].
Defined.

(* ------------------------------------------------------------------ *)
(** *** What the hooks and the callback preserve, a session preserves *)

Section Session_invariant.

Variable Obs : Type.
Variable mongo : engine.
Variable P : Obs -> Prop.

Variables beforeEach afterEach : arg (hook Obs).
Variable cb' : arg (callback Obs).

Hypothesis before_keeps : forall x i s, P s -> P (hook_effect beforeEach x i s).
Hypothesis after_keeps : forall x i s, P s -> P (hook_effect afterEach x i s).
Hypothesis cb_keeps : forall err s, P s -> P (cb_effect cb' err s).




End Session_invariant.


(* ------------------------------------------------------------------ *)
(** *** A callback argument that is not a function *)

Section Methods_lowered.

Variable U : Type.
Variable mongo : engine.
Variables data query : value.
Variable cb : arg (user_callback U).

(** Each public method is a session of [debug] whose completion
    callback, the closure around [default_callback cb], is an observer. *)
Lemma stages_lowered (w : world (list value * U)) :
  run_session (stages mongo data query cb) w =
  run_session
    (debug mongo data query (Fn (@stages_beforeEach U)) (Fn (@stages_afterEach U))
           (Fn (settle (stages_callback (default_callback cb)))) (Val VUndefined))
    (set_obs ([], snd (obs w)) w).
Proof.
  unfold stages. rewrite run_session_modify.
  rewrite debug_lowered by (try apply stages_never_throws; exact I). reflexivity.
Qed.

Lemma exec_lowered (w : world (value * U)) :
  run_session (exec mongo data query cb) w =
  run_session
    (debug mongo data query (Val VNull) (Fn (@exec_afterEach U))
           (Val (VBool true)) (Fn (settle (exec_callback (default_callback cb)))))
    (set_obs (VUndefined, snd (obs w)) w).
Proof.
  unfold exec. rewrite run_session_modify.
  rewrite debug_lowered by (try apply exec_never_throws; exact I). reflexivity.
Qed.

Lemma log_lowered (options : arg (user_callback U)) (w : world (list console_line * U)) :
  run_session (log mongo data query options cb) w =
  run_session
    (debug mongo data query (Fn (log_beforeEach options)) (Fn (@log_afterEach U))
           (Fn (settle (log_callback (default_callback (log_cb options cb)))))
           (Val VUndefined))
    (set_obs (print [LStart] (obs w)) w).
Proof.
  unfold log. rewrite run_session_modify.
  rewrite debug_lowered by (try apply log_never_throws; exact I). reflexivity.
Qed.

End Methods_lowered.

Section Discarded_callback.

Variable U : Type.
Variable mongo : engine.
Variables data query : value.
Variable cb : arg (user_callback U).
Hypothesis not_function : is_function cb = false.




Variable options : arg (user_callback U).
Hypothesis not_in_options_slot : is_function options && is_undefined cb = false.


End Discarded_callback.



(* ================================================================== *)
(** ** The name of the ephemeral store *)

Lemma string_of_N_inj (n m : N) : string_of_N n = string_of_N m -> n = m.
Proof.
  unfold string_of_N. intros H.
  apply DecimalN.Unsigned.to_uint_inj.
  pose proof (NilEmpty.usu (N.to_uint n)) as Hn.
  pose proof (NilEmpty.usu (N.to_uint m)) as Hm.
  rewrite H in Hn. rewrite Hn in Hm. now injection Hm.
Qed.

Lemma string_of_uint_no_underscore (d : uint) :
  no_underscore (NilEmpty.string_of_uint d) = true.
Proof. induction d; cbn; auto. Qed.

Lemma string_of_N_no_underscore (n : N) : no_underscore (string_of_N n) = true.
Proof. apply string_of_uint_no_underscore. Qed.

Lemma append_inv_head (p x y : string) : (p ++ x = p ++ y)%string -> x = y.
Proof.
  induction p as [| c p IH]; cbn; intros H; [exact H|].
  injection H as H. now apply IH.
Qed.

(** Two strings without underscore, each followed by an underscore and a
    tail: equal wholes have equal parts. *)
Lemma split_at_underscore (a : string) :
  forall a' b b' : string,
    no_underscore a = true -> no_underscore a' = true ->
    (a ++ "_" ++ b = a' ++ "_" ++ b')%string -> a = a' /\ b = b'.
Proof.
  induction a as [| c a IH]; intros a' b b' Ha Ha' H.
  - destruct a' as [| c' a'].
    + cbn in H. injection H as H. now split.
    + cbn in H, Ha'. injection H as Hc _. subst c'. discriminate Ha'.
  - destruct a' as [| c' a'].
    + cbn in H, Ha. injection H as Hc _. subst c. discriminate Ha.
    + cbn in H, Ha, Ha'. injection H as Hc H. subst c'.
      apply andb_prop in Ha as [_ Ha]. apply andb_prop in Ha' as [_ Ha'].
      destruct (IH a' b b' Ha Ha' H) as [-> ->]. now split.
Qed.

(** Names generated from different process identifiers or timestamps differ. *)
Lemma database_name_inj (pid1 now1 pid2 now2 : N) :
  database_name pid1 now1 = database_name pid2 now2 -> pid1 = pid2 /\ now1 = now2.
Proof.
  unfold database_name. intros H.
  apply append_inv_head in H.
  apply split_at_underscore in H; try apply string_of_N_no_underscore.
  destruct H as [Hp Hn]. split; now apply string_of_N_inj.
Qed.

Lemma database_name_truthy (p t : N) : truthy_string (database_name p t) = true.
Proof. reflexivity. Qed.

Lemma connects_app (a b : list event) : connects (a ++ b) = connects a ++ connects b.
Proof.
  induction a as [| e a IH]; [reflexivity|].
  destruct e; cbn; now rewrite IH.
Qed.

Lemma connects_stage_events (mongo : engine) (collection : string)
      (parts : list (list value)) :
  forall index, connects (stage_events mongo collection parts index) = [].
Proof.
  induction parts as [| queryPart parts IH]; intros index; cbn; [reflexivity|].
  destruct (aggregate_result mongo index queryPart); cbn; [reflexivity | apply IH].
Qed.

Lemma connects_session_events (Obs : Type) (mongo : engine) (docs query : list value)
      (w : world Obs) :
  connects (session_events mongo docs query w) = [connection_url w].
Proof.
  unfold session_events. cbn [connects]. f_equal.
  destruct (connect_result mongo (connection_url w)); [reflexivity|].
  cbv zeta. rewrite connects_app. unfold series_events. cbn [connects].
  assert (Hdone : forall err, connects (done_events mongo err) = []).
  { intros [e |]; reflexivity. }
  rewrite Hdone, app_nil_r.
  destruct (insert_result mongo docs); [reflexivity|].
  rewrite connects_app, connects_stage_events.
  destruct (stage_error mongo (parts_of query (doSkipStages w)) 0); reflexivity.
Qed.

Lemma store_name_truthy (Obs : Type) (w : world Obs) :
  truthy_string (store_name w) = true.
Proof.
  unfold store_name.
  destruct (debugDatabaseName (my w)) as [name |]; cbn.
  - destruct (truthy_string name) eqn:E; [exact E | reflexivity].
  - reflexivity.
Qed.

(** C5, as stated, fails: two sessions of one debugger, started at
    different times, connect to the store of the same name. *)
Lemma sessions_share_the_store_name :
  let first := run_session
                 (exec healthy sample_docs (VArr sample_query) recording)
                 (sample_world (VNull, [])) in
  let second := run_session
                  (exec healthy sample_docs (VArr sample_query) recording)
                  (set_clock 1436100099999 (world_of first)) in
  connects (trace_of first) =
    ["mongodb://localhost:27017/mongo_aggregation_debugger_4242_1436100000000"%string]
  /\ connects (trace_of second) = connects (trace_of first)
  /\ clock (sample_world (VNull, @nil (option error * value))) <> 1436100099999%N.
Proof. repeat split; try reflexivity. discriminate. Qed.

(** C5 (amended): a session connects to one store, whose name is the
    name the module state holds or, when it holds none (the first
    session of a debugger), the name generated from the process
    identifier and the timestamp of that moment; names generated from
    different identifier / timestamp pairs differ; the session leaves the
    name in the module state, and every session that starts from that
    module state uses the same name, whatever its timestamp. *)
Theorem store_name_is_generated_once
        (Obs : Type) (mongo : engine) (data : value) (docs query : list value)
        (beforeEach afterEach : arg (hook Obs)) (skipStages cb cb' : arg (callback Obs))
        (skip : bool) (w : world Obs) :
  resolve_call skipStages cb = Some (skip, cb') ->
  normalise_data data = Some docs ->
  let r := run_session (debug mongo data (VArr query) beforeEach afterEach skipStages cb) w in
  connects (trace_of r) = [(base_url (mongoParams (my w)) ++ "/" ++ store_name w)%string]
  /\ (truthy_opt_string (debugDatabaseName (my w)) = false ->
      store_name w = database_name (pid w) (clock w))
  /\ (forall pid1 now1 pid2 now2 : N,
        database_name pid1 now1 = database_name pid2 now2 -> pid1 = pid2 /\ now1 = now2)
  /\ debugDatabaseName (my (world_of r)) = Some (store_name w)
  /\ (forall later : world Obs,
        my later = my (world_of r) -> store_name later = store_name w).
Proof.
  intros Hcall Hdata r. subst r.
  erewrite session_valid by eassumption. cbv zeta.
  unfold trace_of, world_of. cbn [fst snd].
  rewrite connects_session_events.
  repeat split.
  - intros Hnone. unfold store_name. now rewrite Hnone.
  - now apply database_name_inj in H.
  - now apply database_name_inj in H.
  - intros later Hlater. unfold store_name at 1. rewrite Hlater.
    cbn [my set_obs name_store set_my set_debugDatabaseName debugDatabaseName
         truthy_opt_string or_default].
    change (store_name (set_doSkipStages skip w)) with (store_name w).
    now rewrite store_name_truthy.
Qed.

Lemma store_name_is_generated_once_witness :
  connects (trace_of (run_session
     (debug healthy sample_docs (VArr sample_query) (Val VNull) (Val VNull)
            (Val (VBool false)) (Val (VFun "cb")))
     (sample_world tt))) =
  ["mongodb://localhost:27017/mongo_aggregation_debugger_4242_1436100000000"%string].
Proof.
  exact (proj1
    (@store_name_is_generated_once unit healthy sample_docs
       [VObj [("foo", VStr "bar"); ("test", VBool true)]] sample_query
       (Val VNull) (Val VNull) (Val (VBool false)) (Val (VFun "cb")) (Val (VFun "cb"))
       false (sample_world tt) eq_refl eq_refl)).
Defined.

(* ================================================================== *)
(** ** Sessions that overlap *)

(** The mode of a session is read from the implicit global
    [doSkipStages] when the connection is established.  A session run on
    its own submits the whole pipeline once in skip mode; when another
    call of [debug] is made before the connection callback runs, the mode
    of that call is the one the first session uses. *)
Remark mode_is_shared_between_sessions :
  let first :=
    debug healthy sample_docs (VArr sample_query) (Val VNull) (Val VNull)
          (Val (VBool true)) (Val (VFun "first")) in
  let second :=
    debug healthy sample_docs (VArr sample_query) (Val VNull) (Val VNull)
          (Val (VBool false)) (Val (VFun "second")) in
  submissions (trace_of (run_session first (sample_world tt))) =
    [EAggregate "documents" sample_query]
  /\ submissions
       (trace_of (bind first (fun pending => bind second (fun _ => run_pending pending))
                       (sample_world tt))) =
     [EAggregate "documents" (firstn 1 sample_query); EAggregate "documents" sample_query].
Proof. split; reflexivity. Qed.

(* ================================================================== *)
(** ** Further properties of the code *)

(** *** [partitionQuery] *)

Lemma firstn_snoc (l : list value) :
  forall (n : nat) (x : value),
    nth_error l n = Some x -> firstn (S n) l = firstn n l ++ [x].
Proof.
  induction l as [| y l IH]; intros n x Hn.
  - destruct n; discriminate Hn.
  - destruct n as [| n].
    + cbn in Hn. injection Hn as ->. reflexivity.
    + cbn in Hn. cbn [firstn]. cbn [firstn] in IH. rewrite (IH n x Hn). reflexivity.
Qed.

Lemma last_prefixes (query : list value) :
  query <> [] -> last (prefixes query) [] = query.
Proof.
  intros Hq. unfold prefixes.
  destruct (List.length query) as [| n] eqn:Hlen.
  - destruct query; [contradiction | discriminate Hlen].
  - rewrite seq_S, map_app. cbn [map Nat.add]. rewrite last_last.
    rewrite <- Hlen. apply firstn_all.
Qed.

(** In cumulative mode [partitionQuery] returns (without throwing) as
    many sub-pipelines as the query has stages; the first is the first
    stage alone, each next one is the one before it followed by the next
    stage, and the last one is the whole query.  In skip mode it returns
    the query as the only sub-pipeline, also when the query is empty. *)
Theorem partitionQuery_chain (query : list value) :
  exists parts : list (list value),
    partitionQuery query false = Some parts
    /\ List.length parts = List.length query
    /\ (forall stage, nth_error query 0 = Some stage -> nth_error parts 0 = Some [stage])
    /\ (forall i stage,
          nth_error query (S i) = Some stage ->
          nth_error parts (S i) = Some (nth i parts [] ++ [stage]))
    /\ (query <> [] -> last parts [] = query)
    /\ partitionQuery query true = Some [query].
Proof.
  exists (prefixes query). repeat split.
  - apply (partitionQuery_eq query false).
  - apply length_prefixes.
  - intros stage Hs.
    assert (H0 : 0 < List.length query).
    { apply nth_error_Some. rewrite Hs. discriminate. }
    unfold prefixes. rewrite nth_error_prefix_list by exact H0.
    now rewrite (firstn_snoc query 0 Hs).
  - intros i stage Hs.
    assert (Hi : S i < List.length query).
    { apply nth_error_Some. rewrite Hs. discriminate. }
    unfold prefixes at 1. rewrite nth_error_prefix_list by exact Hi.
    rewrite nth_prefixes by lia.
    rewrite (firstn_snoc query (S i) Hs).
    now replace (i + 1) with (S i) by lia.
  - apply last_prefixes.
Qed.

(* ------------------------------------------------------------------ *)
(** *** [buildConnectionUrl] *)

(** [buildConnectionUrl] never throws, performs no action on the driver
    and leaves [my.mongoParams] as it is (the default host it would fall
    back to is the host itself); it stores the name of the store, and a
    second call, whatever the time, returns the same URL and changes
    nothing. *)
Theorem buildConnectionUrl_memoises (Obs : Type) (w : world Obs) (later : N) :
  let first := buildConnectionUrl w in
  let second := buildConnectionUrl (set_clock later (world_of first)) in
  (exists url, result_of first = Ok url /\ result_of second = Ok url)
  /\ trace_of first = []
  /\ mongoParams (my (world_of first)) = mongoParams (my w)
  /\ debugDatabaseName (my (world_of first)) <> None
  /\ my (world_of second) = my (world_of first).
Proof.
  cbv zeta. rewrite !buildConnectionUrl_eq.
  unfold result_of, world_of, trace_of. cbn [fst snd].
  assert (Hname : store_name (set_clock later (name_store w)) = store_name w).
  { unfold store_name at 1.
    cbn [my set_clock name_store set_my set_debugDatabaseName debugDatabaseName
         truthy_opt_string or_default].
    now rewrite store_name_truthy. }
  repeat split.
  - exists (connection_url w). split; [reflexivity|].
    unfold connection_url. now rewrite Hname.
  - discriminate.
  - unfold name_store at 1. rewrite Hname. reflexivity.
Qed.

(* ------------------------------------------------------------------ *)
(** *** The arguments [skipStages] and [cb] of [debug] *)

Lemma not_boolean_arg {F} (a : arg F) :
  typeof_arg a <> TBoolean ->
  match a with Val (VBool _) => False | _ => True end.
Proof. destruct a as [f | v]; [easy|]. destruct v; cbn; try easy. Qed.

(** When [skipStages] is neither a boolean nor the callback itself (a
    function with [cb] absent), [debug] calls [cb] once with the error
    [Invalid `skipStages` value], whatever [data] and [query] are, and
    does nothing else: no connection, and the module state, the mode
    included, is as before. *)
Theorem debug_rejects_skipStages
        (Obs : Type) (mongo : engine) (data query : value)
        (beforeEach afterEach : arg (hook Obs)) (skipStages cb : arg (callback Obs))
        (w : world Obs) :
  is_function skipStages && is_undefined cb = false ->
  typeof_arg skipStages <> TBoolean ->
  is_function cb = true ->
  run_session (debug mongo data query beforeEach afterEach skipStages cb) w =
  (Ok tt,
   set_obs (cb_effect cb (Some (Error "Invalid `skipStages` value")) (obs w)) w,
   [EDone (Some (Error "Invalid `skipStages` value"))]).
Proof.
  intros Hover Hbool Hcb. unfold run_session, debug, debug_with. fold_total.
  rewrite Hover.
  apply not_boolean_arg in Hbool.
  assert (Hcall : bind (call_cb cb (Some (Error "Invalid `skipStages` value")))
                       (fun _ => ret (@None (M Obs unit))) w =
                  (Ok None,
                   set_obs (cb_effect cb (Some (Error "Invalid `skipStages` value")) (obs w)) w,
                   [EDone (Some (Error "Invalid `skipStages` value"))])).
  { erewrite bind_ok by (apply call_cb_function; exact Hcb). reflexivity. }
  destruct skipStages as [f | v]; [| destruct v; try contradiction];
    (erewrite bind_ok by exact Hcall); reflexivity.
Qed.

Lemma debug_rejects_skipStages_witness :
  trace_of (run_session
    (debug healthy sample_docs (VArr sample_query) (Val VNull) (Val VNull)
           (Val (VNum 1)) (Val (VFun "cb")))
    (sample_world tt)) = [EDone (Some (Error "Invalid `skipStages` value"))].
Proof.
  exact (f_equal (@trace_of _ _)
    (@debug_rejects_skipStages unit healthy sample_docs (VArr sample_query)
       (Val VNull) (Val VNull) (Val (VNum 1)) (Val (VFun "cb")) (sample_world tt)
       eq_refl ltac:(discriminate) eq_refl)).
Defined.



(* ------------------------------------------------------------------ *)
(** *** Failures of the driver *)

(** When the connection fails, the session does two things: the
    connection request and one call of the completion callback with the
    error of the driver; nothing is inserted, dropped or closed.  The
    name generated for the store stays in [my]. *)
Theorem connection_failure_is_reported_once
        (Obs : Type) (mongo : engine) (data : value) (docs query : list value)
        (beforeEach afterEach : arg (hook Obs)) (skipStages cb cb' : arg (callback Obs))
        (skip : bool) (w : world Obs) (e : error) :
  resolve_call skipStages cb = Some (skip, cb') ->
  normalise_data data = Some docs ->
  connect_result mongo (connection_url w) = Some e ->
  let r := run_session (debug mongo data (VArr query) beforeEach afterEach skipStages cb) w in
  result_of r = Ok tt
  /\ trace_of r = [EConnect (connection_url w); EDone (Some e)]
  /\ obs (world_of r) = cb_effect cb' (Some e) (obs w)
  /\ debugDatabaseName (my (world_of r)) = Some (store_name w).
Proof.
  intros Hcall Hdata Hconn r. subst r.
  erewrite session_valid by eassumption. cbv zeta.
  unfold result_of, trace_of, world_of. cbn [fst snd].
  unfold session_events, session_obs.
  change (connection_url (set_doSkipStages skip w)) with (connection_url w).
  rewrite Hconn. repeat split.
Qed.

Lemma connection_failure_is_reported_once_witness :
  trace_of (run_session
    (debug unreachable sample_docs (VArr sample_query) (Val VNull) (Val VNull)
           (Val (VBool false)) (Val (VFun "cb")))
    (sample_world tt)) =
  [EConnect "mongodb://localhost:27017/mongo_aggregation_debugger_4242_1436100000000";
   EDone (Some (Error "ECONNREFUSED"))].
Proof.
  exact (proj1 (proj2
    (@connection_failure_is_reported_once unit unreachable sample_docs
       [VObj [("foo", VStr "bar"); ("test", VBool true)]] sample_query
       (Val VNull) (Val VNull) (Val (VBool false)) (Val (VFun "cb")) (Val (VFun "cb"))
       false (sample_world tt) (Error "ECONNREFUSED") eq_refl eq_refl eq_refl))).
Defined.

(** When seeding fails, no hook is called and no sub-pipeline is
    submitted: after the insert the session only cleans up.  (The
    completion callback is called twice there, as in every failure of
    the series.) *)
Theorem seeding_failure_runs_no_stage
        (Obs : Type) (mongo : engine) (data : value) (docs query : list value)
        (beforeEach afterEach : arg (hook Obs)) (skipStages cb cb' : arg (callback Obs))
        (skip : bool) (w : world Obs) (e : error) :
  resolve_call skipStages cb = Some (skip, cb') ->
  normalise_data data = Some docs ->
  connect_result mongo (connection_url w) = None ->
  insert_result mongo docs = Some e ->
  let r := run_session (debug mongo data (VArr query) beforeEach afterEach skipStages cb) w in
  trace_of r =
    [EConnect (connection_url w); EInsert (collectionName (my w)) docs;
     EDropDatabase; EClose; EDone None; EClose;
     EDone (js_or (drop_result mongo DropOnError) (Some e))]
  /\ stage_trace (trace_of r) = []
  /\ obs (world_of r) =
     cb_effect cb' (js_or (drop_result mongo DropOnError) (Some e))
               (cb_effect cb' None (obs w)).
Proof.
  intros Hcall Hdata Hconn Hinsert r. subst r.
  erewrite session_valid by eassumption. cbv zeta.
  unfold trace_of, world_of. cbn [fst snd].
  unfold session_events, session_obs.
  change (connection_url (set_doSkipStages skip w)) with (connection_url w).
  rewrite Hconn. cbv zeta.
  unfold series_events, series_error, series_obs, processing_error. rewrite Hinsert.
  repeat split.
Qed.

Lemma seeding_failure_runs_no_stage_witness :
  stage_trace (trace_of (run_session
    (debug seeding_fails sample_docs (VArr sample_query) (Val VNull) (Val VNull)
           (Val (VBool false)) (Val (VFun "cb")))
    (sample_world tt))) = [].
Proof.
  exact (proj1 (proj2
    (@seeding_failure_runs_no_stage unit seeding_fails sample_docs
       [VObj [("foo", VStr "bar"); ("test", VBool true)]] sample_query
       (Val VNull) (Val VNull) (Val (VBool false)) (Val (VFun "cb")) (Val (VFun "cb"))
       false (sample_world tt) (Error "insert failed") eq_refl eq_refl eq_refl eq_refl))).
Defined.

(** When seeding and every sub-pipeline succeed but the teardown task
    fails with [e], [db.dropDatabase] is called a second time by the
    final callback, both calls precede the first call of the completion
    callback, and the error it is finally given is the error of the
    second drop, or [e] when the second drop succeeds. *)
Theorem teardown_failure_drops_twice
        (Obs : Type) (mongo : engine) (data : value) (docs query : list value)
        (beforeEach afterEach : arg (hook Obs)) (skipStages cb cb' : arg (callback Obs))
        (skip : bool) (w : world Obs) (e : error) :
  resolve_call skipStages cb = Some (skip, cb') ->
  normalise_data data = Some docs ->
  connect_result mongo (connection_url w) = None ->
  processing_error mongo docs (parts_of query skip) = None ->
  drop_result mongo DropInSeries = Some e ->
  let t := trace_of (run_session
             (debug mongo data (VArr query) beforeEach afterEach skipStages cb) w) in
  drop_count t = 2
  /\ drops_before_done t = 2
  /\ errors_reported t =
     [match drop_result mongo DropOnError with Some e2 => e2 | None => e end].
Proof.
  intros Hcall Hdata Hconn Hproc Hdrop t. subst t.
  erewrite session_trace_with_store by eassumption.
  rewrite drop_count_quiet_app, drops_before_done_quiet_app, errors_reported_quiet_app
    by apply session_prefix_quiet.
  unfold session_suffix. cbn [doSkipStages set_doSkipStages]. rewrite Hproc, Hdrop.
  cbn. destruct (drop_result mongo DropOnError); repeat split.
Qed.

Lemma teardown_failure_drops_twice_witness :
  drop_count (trace_of (run_session
    (debug teardown_fails sample_docs (VArr sample_query) (Val VNull) (Val VNull)
           (Val (VBool false)) (Val (VFun "cb")))
    (sample_world tt))) = 2.
Proof.
  exact (proj1
    (@teardown_failure_drops_twice unit teardown_fails sample_docs
       [VObj [("foo", VStr "bar"); ("test", VBool true)]] sample_query
       (Val VNull) (Val VNull) (Val (VBool false)) (Val (VFun "cb")) (Val (VFun "cb"))
       false (sample_world tt) (Error "drop failed") eq_refl eq_refl eq_refl eq_refl eq_refl)).
Defined.

(* ------------------------------------------------------------------ *)
(** *** The stage tasks, when a run of them is accepted *)

Lemma map_nth_seq (l : list (list value)) :
  map (fun i => nth i l []) (seq 0 (List.length l)) = l.
Proof.
  induction l as [| x l IH]; [reflexivity|].
  cbn [List.length seq map nth]. f_equal.
  rewrite <- seq_shift, map_map. exact IH.
Qed.

Section Accepted_run.

Variable Obs : Type.
Variable mongo : engine.
Variables beforeEach afterEach : arg (hook Obs).
Variable collection : string.
Variables part results : nat -> list value.

Local Abbreviation round_effect := (round_effect beforeEach afterEach part results).

Lemma stage_tasks_accepted (n : nat) :
  forall (k : nat) (more : list (list value)) (s : Obs),
    (forall i, k <= i < k + n -> aggregate_result mongo i (part i) = inr (results i)) ->
    stage_events mongo collection (map part (seq k n) ++ more) k =
      flat_map (stage_round mongo collection part results) (seq k n)
      ++ stage_events mongo collection more (k + n)
    /\ stage_error mongo (map part (seq k n) ++ more) k = stage_error mongo more (k + n)
    /\ stage_obs mongo beforeEach afterEach (map part (seq k n) ++ more) k s =
       stage_obs mongo beforeEach afterEach more (k + n) (fold_left round_effect (seq k n) s).
Proof.
  induction n as [| n IH]; intros k more s Hok.
  - rewrite Nat.add_0_r. repeat split.
  - simpl seq. simpl map. simpl app.
    simpl stage_events. simpl stage_error. simpl stage_obs. simpl flat_map.
    simpl fold_left.
    rewrite (Hok k) by lia.
    destruct (IH (S k) more (round_effect s k)) as (Hev & Herr & Hobs).
    { intros i Hi. apply Hok. lia. }
    replace (k + S n) with (S k + n) by lia.
    rewrite Hev, Herr.
    split; [reflexivity | split; [reflexivity | exact Hobs]].
Qed.

End Accepted_run.

Lemma stage_trace_session (Obs : Type) (mongo : engine) (docs query : list value)
      (w : world Obs) :
  stage_trace (session_prefix mongo docs query w ++ session_suffix mongo docs query w) =
  match insert_result mongo docs with
  | Some _ => []
  | None => stage_events mongo (collectionName (my w)) (parts_of query (doSkipStages w)) 0
  end.
Proof.
  unfold session_prefix.
  match goal with
  | |- stage_trace ((?c :: ?i :: ?l) ++ ?s) = _ =>
      change ((c :: i :: l) ++ s) with ([c; i] ++ (l ++ s))
  end.
  unfold stage_trace at 1. rewrite filter_app. simpl filter at 1. rewrite app_nil_l.
  match goal with
  | |- filter is_stage_event ?l = _ => change (filter is_stage_event l) with (stage_trace l)
  end.
  destruct (insert_result mongo docs) as [e |].
  - simpl app. apply stage_trace_suffix.
  - rewrite stage_trace_stage_app by apply stage_events_are_stage_events.
    now rewrite stage_trace_suffix, app_nil_r.
Qed.

(** A session whose every step succeeds, in either mode: it connects,
    inserts the records, then for each sub-pipeline in order calls
    [beforeEach], submits it and calls [afterEach] with its results, then
    drops the database, closes the connection and calls the completion
    callback, once and without error; the state of the hooks is the one
    their calls leave, in that order. *)
Theorem successful_session_runs_in_order
        (Obs : Type) (mongo : engine) (data : value) (docs query : list value)
        (beforeEach afterEach : arg (hook Obs)) (skipStages cb cb' : arg (callback Obs))
        (skip : bool) (w : world Obs) (results : nat -> list value) :
  resolve_call skipStages cb = Some (skip, cb') ->
  normalise_data data = Some docs ->
  connect_result mongo (connection_url w) = None ->
  insert_result mongo docs = None ->
  (forall i, i < List.length (parts_of query skip) ->
             aggregate_result mongo i (nth i (parts_of query skip) []) = inr (results i)) ->
  drop_result mongo DropInSeries = None ->
  let part := fun i => nth i (parts_of query skip) [] in
  let r := run_session (debug mongo data (VArr query) beforeEach afterEach skipStages cb) w in
  result_of r = Ok tt
  /\ trace_of r =
     EConnect (connection_url w) :: EInsert (collectionName (my w)) docs ::
       flat_map (stage_round mongo (collectionName (my w)) part results)
                (seq 0 (List.length (parts_of query skip)))
       ++ [EDropDatabase; EClose; EDone None]
  /\ obs (world_of r) =
     cb_effect cb' None
       (fold_left (round_effect (default_hook beforeEach) (default_hook afterEach) part results)
                  (seq 0 (List.length (parts_of query skip))) (obs w)).
Proof.
  intros Hcall Hdata Hconn Hinsert Hok Hdrop part r. subst r.
  erewrite session_valid by eassumption. cbv zeta.
  unfold result_of, trace_of, world_of. cbn [fst snd].
  unfold session_events, session_obs.
  change (connection_url (set_doSkipStages skip w)) with (connection_url w).
  rewrite Hconn. cbn [doSkipStages set_doSkipStages my collectionName obs].
  destruct (@stage_tasks_accepted Obs mongo (default_hook beforeEach) (default_hook afterEach)
              (collectionName (my w)) part results
              (List.length (parts_of query skip)) 0 [] (obs w)) as (Hev & Herr & Hobs).
  { intros i Hi. apply Hok. lia. }
  rewrite app_nil_r in Hev, Herr, Hobs.
  unfold part in Hev at 1, Herr, Hobs at 1.
  rewrite map_nth_seq in Hev, Herr, Hobs.
  simpl in Hev, Herr, Hobs. rewrite app_nil_r in Hev.
  unfold series_events, series_error, series_obs, processing_error.
  rewrite Hinsert, Herr, Hdrop, Hev, Hobs.
  split; [reflexivity | split; [| reflexivity]].
  simpl. now rewrite <- app_assoc.
Qed.

Lemma successful_session_runs_in_order_witness :
  trace_of (run_session
    (debug healthy sample_docs (VArr sample_query) (Val VNull) (Val VNull)
           (Val (VBool true)) (Val (VFun "cb")))
    (sample_world tt)) =
  [EConnect "mongodb://localhost:27017/mongo_aggregation_debugger_4242_1436100000000";
   EInsert "documents" [VObj [("foo", VStr "bar"); ("test", VBool true)]];
   EBefore sample_query 0; EAggregate "documents" sample_query; EAfter [VNum 0] 0;
   EDropDatabase; EClose; EDone None].
Proof.
  exact (proj1 (proj2
    (@successful_session_runs_in_order unit healthy sample_docs
       [VObj [("foo", VStr "bar"); ("test", VBool true)]] sample_query
       (Val VNull) (Val VNull) (Val (VBool true)) (Val (VFun "cb")) (Val (VFun "cb"))
       true (sample_world tt) (fun i => [VNum (Z.of_nat i)])
       eq_refl eq_refl eq_refl eq_refl (fun i _ => eq_refl) eq_refl))).
Defined.

Lemma prefixes_split (query : list value) (k : nat) :
  k < List.length query ->
  prefixes query =
  map (fun i => firstn (S i) query) (seq 0 k) ++
  firstn (S k) query ::
  map (fun i => firstn (S i) query) (seq (S k) (List.length query - S k)).
Proof.
  intros Hk. unfold prefixes.
  replace (List.length query) with (k + S (List.length query - S k)) at 1 by lia.
  rewrite seq_app, map_app. reflexivity.
Qed.

(** Fail-fast, in cumulative mode: when the first [k] sub-pipelines are
    accepted and sub-pipeline [k] is rejected with [e], the hooks and the
    engine see the [k] full rounds, then [beforeEach] and the submission
    of sub-pipeline [k], and nothing more: its [afterEach] is not called
    and no later sub-pipeline is submitted.  The store is dropped once,
    and the error given to the callback is [e], or the error of that drop
    when it fails. *)
Theorem rejected_stage_ends_the_run
        (Obs : Type) (mongo : engine) (data : value) (docs query : list value)
        (beforeEach afterEach : arg (hook Obs)) (skipStages cb cb' : arg (callback Obs))
        (w : world Obs) (results : nat -> list value) (k : nat) (e : error) :
  resolve_call skipStages cb = Some (false, cb') ->
  normalise_data data = Some docs ->
  connect_result mongo (connection_url w) = None ->
  insert_result mongo docs = None ->
  k < List.length query ->
  (forall i, i < k -> aggregate_result mongo i (firstn (i + 1) query) = inr (results i)) ->
  aggregate_result mongo k (firstn (k + 1) query) = inl e ->
  let t := trace_of (run_session
             (debug mongo data (VArr query) beforeEach afterEach skipStages cb) w) in
  stage_trace t =
    flat_map (fun i => [EBefore (firstn (i + 1) query) i;
                        EAggregate (collectionName (my w)) (firstn (i + 1) query);
                        EAfter (results i) i])
             (seq 0 k)
    ++ [EBefore (firstn (k + 1) query) k;
        EAggregate (collectionName (my w)) (firstn (k + 1) query)]
  /\ drop_count t = 1
  /\ errors_reported t =
     [match drop_result mongo DropOnError with Some e2 => e2 | None => e end].
Proof.
  intros Hcall Hdata Hconn Hinsert Hk Hok Hfail t. subst t.
  erewrite session_trace_with_store by eassumption.
  rewrite stage_trace_session, drop_count_quiet_app, errors_reported_quiet_app
    by apply session_prefix_quiet.
  unfold session_suffix, processing_error. rewrite Hinsert.
  cbn [doSkipStages set_doSkipStages my collectionName parts_of].
  rewrite (prefixes_split query Hk).
  destruct (@stage_tasks_accepted Obs mongo beforeEach afterEach
              (collectionName (my w)) (fun i => firstn (S i) query) results k 0
              (firstn (S k) query ::
               map (fun i => firstn (S i) query) (seq (S k) (List.length query - S k)))
              (obs w)) as (Hev & Herr & _).
  { intros i Hi. replace (S i) with (i + 1) by lia. apply Hok. lia. }
  rewrite Hev, Herr. cbn [Nat.add stage_events stage_error].
  replace (S k) with (k + 1) by lia. rewrite Hfail.
  split; [| split].
  - f_equal. apply flat_map_ext. intros i. unfold stage_round.
    now replace (S i) with (i + 1) by lia.
  - reflexivity.
  - cbn. destruct (drop_result mongo DropOnError); reflexivity.
Qed.

Lemma rejected_stage_ends_the_run_witness :
  stage_trace (trace_of (run_session
    (debug second_stage_fails sample_docs (VArr sample_query) (Val VNull) (Val VNull)
           (Val (VBool false)) (Val (VFun "cb")))
    (sample_world tt))) =
  [EBefore (firstn 1 sample_query) 0; EAggregate "documents" (firstn 1 sample_query);
   EAfter [VNum 0] 0;
   EBefore sample_query 1; EAggregate "documents" sample_query].
Proof.
  exact (proj1
    (@rejected_stage_ends_the_run unit second_stage_fails sample_docs
       [VObj [("foo", VStr "bar"); ("test", VBool true)]] sample_query
       (Val VNull) (Val VNull) (Val (VBool false)) (Val (VFun "cb")) (Val (VFun "cb"))
       (sample_world tt) (fun i => [VNum (Z.of_nat i)]) 1 (Error "unknown operator")
       eq_refl eq_refl eq_refl eq_refl ltac:(cbn; lia)
       ltac:(intros [| i] Hi; [reflexivity | lia]) eq_refl)).
Defined.

(* ------------------------------------------------------------------ *)
(** *** What [stages] and [exec] deliver *)

Section Delivered.

Variable U : Type.
Variable mongo : engine.
Variables part results : nat -> list value.

Lemma stages_rounds (n : nat) :
  forall (k : nat) (output : list value) (u : U),
    List.length output = k ->
    fold_left (round_effect (Fn (@stages_beforeEach U)) (Fn (@stages_afterEach U)) part results)
              (seq k n) (output, u) =
    (output ++ map (stages_entry part results) (seq k n), u).
Proof.
  induction n as [| n IH]; intros k output u Hlen.
  - cbn. now rewrite app_nil_r.
  - simpl seq. simpl fold_left. simpl map.
    assert (Hround : stages_afterEach (results k) k
                       (stages_beforeEach (part k) k (output, u)) =
                     (output ++ [stages_entry part results k], u)).
    { unfold stages_beforeEach, stages_afterEach. cbn [fst snd]. subst k.
      rewrite array_get_last.
      cbn [truthy set_prop upsert String.eqb Ascii.eqb Bool.eqb].
      now rewrite array_set_last. }
    rewrite Hround.
    rewrite IH by (rewrite length_app; cbn; lia).
    rewrite <- app_assoc. reflexivity.
Qed.

End Delivered.

Lemma stages_run_accepted
        (U : Type) (mongo : engine) (data : value) (docs query : list value)
        (cb : arg (user_callback U)) (w : world (list value * U))
        (results : nat -> list value) :
  normalise_data data = Some docs ->
  connect_result mongo (connection_url w) = None ->
  insert_result mongo docs = None ->
  (forall i, i < List.length query ->
             aggregate_result mongo i (firstn (i + 1) query) = inr (results i)) ->
  drop_result mongo DropInSeries = None ->
  let output :=
    map (fun i => VObj [("query", VArr (firstn (i + 1) query));
                        ("results", VArr (results i))])
        (seq 0 (List.length query)) in
  let r := run_session (stages mongo data (VArr query) cb) w in
  obs (world_of r) = (output, delivered cb None (VArr output) (snd (obs w)))
  /\ reports (trace_of r) = [None].
Proof.
  intros Hdata Hconn Hinsert Hok Hdrop output r. subst r.
  erewrite stages_session by exact Hdata. cbv zeta.
  unfold trace_of, world_of. cbn [fst snd].
  unfold session_events, session_obs.
  change (connection_url (set_doSkipStages false (set_obs ([], snd (obs w)) w)))
    with (connection_url w).
  rewrite Hconn.
  cbn [doSkipStages set_doSkipStages parts_of my set_obs collectionName obs].
  change (default_hook (Fn (@stages_beforeEach U))) with (Fn (@stages_beforeEach U)).
  change (default_hook (Fn (@stages_afterEach U))) with (Fn (@stages_afterEach U)).
  destruct (@stage_tasks_accepted _ mongo (Fn (@stages_beforeEach U)) (Fn (@stages_afterEach U))
              (collectionName (my w)) (fun i => firstn (S i) query) results
              (List.length query) 0 [] ([], snd (obs w))) as (Hev & Herr & Hobs).
  { intros i Hi. replace (S i) with (i + 1) by lia. apply Hok. lia. }
  rewrite app_nil_r in Hev, Herr, Hobs. fold (prefixes query) in Hev, Herr, Hobs.
  cbn [stage_error] in Herr. cbn [stage_obs] in Hobs.
  rewrite stages_rounds in Hobs by reflexivity.
  unfold series_events, series_error, series_obs, processing_error.
  rewrite Hinsert, Herr, Hdrop, Hobs.
  assert (Hout : [] ++ map (stages_entry (fun i => firstn (S i) query) results)
                           (seq 0 (List.length query)) = output).
  { unfold output. rewrite app_nil_l. apply map_ext. intros i. unfold stages_entry.
    now replace (i + 1) with (S i) by lia. }
  rewrite Hout. split.
  - unfold done_obs, cb_effect, effect. now rewrite stages_settled.
  - simpl. rewrite <- app_assoc, reports_quiet_app by apply stage_events_quiet.
    reflexivity.
Qed.

(** On a run whose every step succeeds, [stages] calls the callback once
    as [cb(null, output)], where entry [i] of [output] is exactly
    [{ query: the first i+1 stages, results: the records the engine
    returned for them }], in the order of the stages. *)
Theorem stages_delivers_queries_and_results
        (U : Type) (mongo : engine) (data : value) (docs query : list value)
        (cb : arg (user_callback U)) (w : world (list value * U))
        (results : nat -> list value) :
  normalise_data data = Some docs ->
  connect_result mongo (connection_url w) = None ->
  insert_result mongo docs = None ->
  (forall i, i < List.length query ->
             aggregate_result mongo i (firstn (i + 1) query) = inr (results i)) ->
  drop_result mongo DropInSeries = None ->
  let output :=
    map (fun i => VObj [("query", VArr (firstn (i + 1) query));
                        ("results", VArr (results i))])
        (seq 0 (List.length query)) in
  let r := run_session (stages mongo data (VArr query) cb) w in
  obs (world_of r) = (output, delivered cb None (VArr output) (snd (obs w)))
  /\ reports (trace_of r) = [None].
Proof. intros. eapply stages_run_accepted; eassumption. Qed.

Lemma stages_delivers_queries_and_results_witness :
  obs (world_of (run_session (stages healthy sample_docs (VArr sample_query) recording)
                             (sample_world ([VNull], [])))) =
  ([VObj [("query", VArr (firstn 1 sample_query)); ("results", VArr [VNum 0])];
    VObj [("query", VArr (firstn 2 sample_query)); ("results", VArr [VNum 1])]],
   [(None,
     VArr [VObj [("query", VArr (firstn 1 sample_query)); ("results", VArr [VNum 0])];
           VObj [("query", VArr (firstn 2 sample_query)); ("results", VArr [VNum 1])]])]).
Proof.
  exact (proj1
    (@stages_delivers_queries_and_results _ healthy sample_docs
       [VObj [("foo", VStr "bar"); ("test", VBool true)]] sample_query
       recording (sample_world ([VNull], [])) (fun i => [VNum (Z.of_nat i)])
       eq_refl eq_refl eq_refl (fun i _ => eq_refl) eq_refl)).
Defined.

Lemma exec_run_accepted
      (U : Type) (mongo : engine) (data : value) (docs query results : list value)
      (cb : arg (user_callback U)) (w : world (value * U)) :
  normalise_data data = Some docs ->
  connect_result mongo (connection_url w) = None ->
  insert_result mongo docs = None ->
  aggregate_result mongo 0 query = inr results ->
  drop_result mongo DropInSeries = None ->
  obs (world_of (run_session (exec mongo data (VArr query) cb) w)) =
  (VArr results, delivered cb None (VArr results) (snd (obs w))).
Proof.
  intros Hdata Hconn Hinsert Hagg Hdrop.
  erewrite exec_session by exact Hdata. cbv zeta.
  unfold world_of. cbn [fst snd]. unfold session_obs.
  change (connection_url (set_doSkipStages true (set_obs (VUndefined, snd (obs w)) w)))
    with (connection_url w).
  rewrite Hconn.
  cbn [doSkipStages set_doSkipStages parts_of my set_obs collectionName].
  unfold series_error, series_obs, processing_error.
  rewrite Hinsert. cbn [stage_error stage_obs]. rewrite Hagg, Hdrop.
  unfold done_obs, cb_effect, effect. now rewrite exec_settled.
Qed.

(** [exec] returns what the last stage of [stages] returns: with an
    engine whose answer to a pipeline does not depend on when it is
    asked, and a non-empty pipeline, on runs whose every step succeeds the
    output of [exec] is the [results] of the last entry of the output of
    [stages]. *)
Theorem exec_is_the_last_stage
        (U : Type) (mongo : engine) (data : value) (docs query : list value)
        (cb_exec cb_stages : arg (user_callback U))
        (w_exec : world (value * U)) (w_stages : world (list value * U))
        (results : nat -> list value) :
  normalise_data data = Some docs ->
  connect_result mongo (connection_url w_exec) = None ->
  connect_result mongo (connection_url w_stages) = None ->
  insert_result mongo docs = None ->
  query <> [] ->
  (forall i j p, aggregate_result mongo i p = aggregate_result mongo j p) ->
  (forall i, i < List.length query ->
             aggregate_result mongo i (firstn (i + 1) query) = inr (results i)) ->
  drop_result mongo DropInSeries = None ->
  fst (obs (world_of (run_session (exec mongo data (VArr query) cb_exec) w_exec))) =
  get_prop
    (last (fst (obs (world_of
       (run_session (stages mongo data (VArr query) cb_stages) w_stages)))) VUndefined)
    "results".
Proof.
  intros Hdata Hce Hcs Hinsert Hq Hindep Hok Hdrop.
  destruct (List.length query) as [| n] eqn:Hlen.
  { destruct query; [contradiction | discriminate Hlen]. }
  assert (Hlast : aggregate_result mongo 0 query = inr (results n)).
  { rewrite (Hindep 0 n). rewrite <- (firstn_all query) at 1. rewrite Hlen.
    replace (S n) with (n + 1) by lia. apply Hok. lia. }
  rewrite (@exec_run_accepted U mongo data docs query (results n) cb_exec w_exec
             Hdata Hce Hinsert Hlast Hdrop).
  destruct (@stages_run_accepted U mongo data docs query cb_stages w_stages results
              Hdata Hcs Hinsert) as [Hobs _].
  { intros i Hi. apply Hok. lia. }
  { exact Hdrop. }
  cbv zeta in Hobs. rewrite Hobs. cbn [fst]. rewrite Hlen.
  rewrite seq_S, map_app. cbn [map Nat.add]. rewrite last_last. reflexivity.
Qed.

Lemma exec_is_the_last_stage_witness :
  fst (obs (world_of (run_session (exec stage_counter sample_docs (VArr sample_query) recording)
                                  (sample_world (VNull, []))))) =
  get_prop
    (last (fst (obs (world_of
       (run_session (stages stage_counter sample_docs (VArr sample_query) recording)
                    (sample_world ([], [])))))) VUndefined)
    "results".
Proof.
  apply (@exec_is_the_last_stage _ stage_counter sample_docs
           [VObj [("foo", VStr "bar"); ("test", VBool true)]] sample_query
           recording recording (sample_world (VNull, [])) (sample_world ([], []))
           (fun i => [VNum (Z.of_nat (i + 1))])); try reflexivity.
  - discriminate.
  - intros [| [| i]] Hi; [reflexivity | reflexivity | cbn in Hi; lia].
Defined.

(* ------------------------------------------------------------------ *)
(** *** What [log] prints *)

Lemma last_firstn (l : list value) :
  forall i : nat, i < List.length l -> last (firstn (S i) l) VUndefined = nth i l VUndefined.
Proof.
  induction l as [| x l IH]; intros i Hi; [cbn in Hi; lia|].
  destruct i as [| i]; [reflexivity|].
  cbn in Hi. specialize (IH i ltac:(lia)).
  change (firstn (S (S i)) (x :: l)) with (x :: firstn (S i) l).
  cbn [nth]. rewrite <- IH.
  destruct l as [| y l]; [cbn in Hi; lia | reflexivity].
Qed.

Section Log_facts.

Variable U : Type.
Variable mongo : engine.
Variables options cb : arg (user_callback U).
Variables part results : nat -> list value.

Lemma log_rounds (n : nat) :
  forall (k : nat) (console : list console_line) (u : U),
    fold_left (round_effect (Fn (log_beforeEach options)) (Fn (@log_afterEach U)) part results)
              (seq k n) (console, u) =
    (console ++ flat_map (log_lines (showQuery options) part results) (seq k n), u).
Proof.
  induction n as [| n IH]; intros k console u.
  - cbn. now rewrite app_nil_r.
  - simpl seq. simpl fold_left. simpl flat_map.
    assert (Hround : log_afterEach (results k) k
                       (log_beforeEach options (part k) k (console, u)) =
                     (console ++ log_lines (showQuery options) part results k, u)).
    { unfold log_afterEach, log_beforeEach, log_lines, print.
      destruct (showQuery options); cbn [fst snd]; rewrite <- ?app_assoc; reflexivity. }
    rewrite Hround, IH. now rewrite <- app_assoc.
Qed.

Lemma log_session (data : value) (docs query : list value)
      (w : world (list console_line * U)) :
  normalise_data data = Some docs ->
  run_session (log mongo data (VArr query) options cb) w =
  let w1 := set_doSkipStages false (set_obs (print [LStart] (obs w)) w) in
  (Ok tt,
   set_obs (session_obs mongo (Fn (log_beforeEach options)) (Fn (@log_afterEach U))
              (Fn (settle (log_callback (default_callback (log_cb options cb))))) docs query w1)
           (name_store w1),
   session_events mongo docs query w1).
Proof.
  intros Hdata. unfold log. rewrite run_session_modify.
  rewrite debug_lowered by (try apply log_never_throws; exact I). cbn [lower].
  erewrite session_valid by (try exact Hdata; reflexivity). reflexivity.
Qed.

End Log_facts.

(** On a run whose every step succeeds, [log] prints the start banner,
    then for each stage [i], in order: its number [i+1] with the first
    key of stage [i] (the operator), the sub-pipeline and a results
    header when [options.showQuery] is truthy, and the results of the
    first [i+1] stages; then the end banner; and it calls the callback
    once, as [cb()].  The callback is the fourth argument, or the third
    when it is a function and the fourth is absent. *)
Theorem log_prints_every_stage
        (U : Type) (mongo : engine) (data : value) (docs query : list value)
        (options cb : arg (user_callback U)) (w : world (list console_line * U))
        (results : nat -> list value) :
  normalise_data data = Some docs ->
  connect_result mongo (connection_url w) = None ->
  insert_result mongo docs = None ->
  (forall i, i < List.length query ->
             aggregate_result mongo i (firstn (i + 1) query) = inr (results i)) ->
  drop_result mongo DropInSeries = None ->
  obs (world_of (run_session (log mongo data (VArr query) options cb) w)) =
  (fst (obs w) ++
   LStart ::
   flat_map (fun i =>
               LStage (i + 1) (first_key (nth i query VUndefined)) ::
               (if showQuery options
                then [LQuery (firstn (i + 1) query); LResultsHeader] else []) ++
               [LInspect (results i); LBlank])
            (seq 0 (List.length query))
   ++ [LEnd],
   delivered (log_cb options cb) None VUndefined (snd (obs w))).
Proof.
  intros Hdata Hconn Hinsert Hok Hdrop.
  erewrite log_session by exact Hdata. cbv zeta.
  unfold world_of. cbn [fst snd]. unfold session_obs.
  change (connection_url (set_doSkipStages false (set_obs (print [LStart] (obs w)) w)))
    with (connection_url w).
  rewrite Hconn.
  cbn [doSkipStages set_doSkipStages parts_of my set_obs collectionName obs].
  change (default_hook (Fn (log_beforeEach options))) with (Fn (log_beforeEach options)).
  change (default_hook (Fn (@log_afterEach U))) with (Fn (@log_afterEach U)).
  destruct (@stage_tasks_accepted _ mongo (Fn (log_beforeEach options)) (Fn (@log_afterEach U))
              (collectionName (my w)) (fun i => firstn (S i) query) results
              (List.length query) 0 [] (print [LStart] (obs w))) as (_ & Herr & Hobs).
  { intros i Hi. replace (S i) with (i + 1) by lia. apply Hok. lia. }
  rewrite app_nil_r in Herr, Hobs. fold (prefixes query) in Herr, Hobs.
  cbn [stage_error] in Herr. cbn [stage_obs] in Hobs.
  change (print [LStart] (obs w)) with (fst (obs w) ++ [LStart], snd (obs w)) in Hobs |- *.
  rewrite log_rounds in Hobs.
  unfold series_error, series_obs, processing_error.
  rewrite Hinsert, Herr, Hdrop, Hobs.
  unfold done_obs, cb_effect, effect. rewrite log_settled. cbn [fst snd]. f_equal.
  assert (Hflat :
    flat_map (log_lines (showQuery options) (fun i => firstn (S i) query) results)
             (seq 0 (List.length query)) =
    flat_map (fun i =>
                LStage (i + 1) (first_key (nth i query VUndefined)) ::
                (if showQuery options
                 then [LQuery (firstn (i + 1) query); LResultsHeader] else []) ++
                [LInspect (results i); LBlank])
             (seq 0 (List.length query))).
  { rewrite !flat_map_concat_map. f_equal.
    apply map_ext_in. intros i Hi. apply in_seq in Hi.
    unfold log_lines. rewrite last_firstn by lia.
    now replace (i + 1) with (S i) by lia. }
  rewrite Hflat. rewrite <- !app_assoc. reflexivity.
Qed.

Lemma log_prints_every_stage_witness :
  obs (world_of (run_session
    (log healthy sample_docs (VArr sample_query) recording (Val VUndefined))
    (sample_world ([], [])))) =
  ([LStart;
    LStage 1 (VStr "$match"); LInspect [VNum 0]; LBlank;
    LStage 2 (VStr "$project"); LInspect [VNum 1]; LBlank;
    LEnd],
   [(None, VUndefined)]).
Proof.
  exact (@log_prints_every_stage _ healthy sample_docs
           [VObj [("foo", VStr "bar"); ("test", VBool true)]] sample_query
           recording (Val VUndefined) (sample_world ([], [])) (fun i => [VNum (Z.of_nat i)])
           eq_refl eq_refl eq_refl (fun i _ => eq_refl) eq_refl).
Defined.

(* ------------------------------------------------------------------ *)
(** *** A call made while another session waits for its connection *)

Lemma connection_url_name_store (Obs : Type) (skip : bool) (w : world Obs) :
  connection_url (set_doSkipStages skip (name_store w)) = connection_url w.
Proof.
  unfold connection_url. f_equal. f_equal.
  unfold store_name at 1.
  cbn [my set_doSkipStages name_store set_my set_debugDatabaseName debugDatabaseName
       truthy_opt_string or_default].
  now rewrite store_name_truthy.
Qed.

(** The mode is an implicit global that the connection callback reads.
    When a second valid call of [debug] is made before the connection
    callback of a first one runs, the second call requests a connection
    to the same store, and the first session then does exactly what it
    would do had it been called with the mode of the second call. *)
Theorem overlapping_call_sets_the_mode
        (Obs : Type) (mongo : engine)
        (data1 : value) (docs1 query1 : list value) (before1 after1 : arg (hook Obs))
        (skipStages1 cb1 cb1' : arg (callback Obs)) (skip1 : bool)
        (data2 : value) (docs2 query2 : list value) (before2 after2 : arg (hook Obs))
        (skipStages2 cb2 cb2' : arg (callback Obs)) (skip2 : bool)
        (w : world Obs) :
  resolve_call skipStages1 cb1 = Some (skip1, cb1') ->
  normalise_data data1 = Some docs1 ->
  resolve_call skipStages2 cb2 = Some (skip2, cb2') ->
  normalise_data data2 = Some docs2 ->
  trace_of (overlapped
              (debug mongo data1 (VArr query1) before1 after1 skipStages1 cb1)
              (debug mongo data2 (VArr query2) before2 after2 skipStages2 cb2) w) =
  EConnect (connection_url w) ::
  trace_of (run_session
              (debug mongo data1 (VArr query1) before1 after1 (Val (VBool skip2)) cb1') w).
Proof.
  intros Hcall1 Hdata1 Hcall2 Hdata2.
  pose proof (resolve_call_function _ _ Hcall1) as Hcb1.
  pose proof (resolve_call_function _ _ Hcall2) as Hcb2.
  assert (Hcall : resolve_call (Val (VBool skip2)) cb1' = Some (skip2, cb1')).
  { unfold resolve_call. cbn. now rewrite Hcb1. }
  erewrite session_valid by eassumption. cbv zeta.
  unfold trace_of at 2. cbn [snd].
  unfold overlapped.
  erewrite (debug_resolved mongo data1) by exact Hcall1.
  erewrite (debug_resolved mongo data2) by exact Hcall2.
  unfold bind at 1. unfold bind at 1. unfold modify at 1.
  erewrite debug_checked_valid by eassumption.
  unfold bind at 1. unfold bind at 1. unfold modify at 1.
  erewrite debug_checked_valid by eassumption.
  cbn [run_pending]. rewrite connection_url_name_store.
  change (connection_url (set_doSkipStages skip1 w)) with (connection_url w).
  unfold session_events.
  change (connection_url (set_doSkipStages skip2 w)) with (connection_url w).
  unfold trace_of.
  destruct (connect_result mongo (connection_url w)) as [e |].
  - unfold connected, connected_with. fold_total.
    rewrite call_cb_function by exact Hcb1. reflexivity.
  - rewrite connected_ok by (try apply default_hook_function; exact Hcb1).
    reflexivity.
Qed.

Lemma overlapping_call_sets_the_mode_witness :
  submissions (trace_of (overlapped
     (debug healthy sample_docs (VArr sample_query) (Val VNull) (Val VNull)
            (Val (VBool true)) (Val (VFun "first")))
     (debug healthy sample_docs (VArr []) (Val VNull) (Val VNull)
            (Val (VBool false)) (Val (VFun "second")))
     (sample_world tt))) =
  [EAggregate "documents" (firstn 1 sample_query); EAggregate "documents" sample_query].
Proof.
  rewrite (@overlapping_call_sets_the_mode unit healthy
             sample_docs [VObj [("foo", VStr "bar"); ("test", VBool true)]] sample_query
             (Val VNull) (Val VNull) (Val (VBool true)) (Val (VFun "first")) (Val (VFun "first"))
             true
             sample_docs [VObj [("foo", VStr "bar"); ("test", VBool true)]] []
             (Val VNull) (Val VNull) (Val (VBool false)) (Val (VFun "second"))
             (Val (VFun "second")) false
             (sample_world tt) eq_refl eq_refl eq_refl eq_refl).
  reflexivity.
Defined.

(* ------------------------------------------------------------------ *)
(** *** The public methods on invalid arguments *)

Lemma session_rejected
      (Obs : Type) (mongo : engine) (data query : value)
      (beforeEach afterEach : arg (hook Obs)) (skipStages cb cb' : arg (callback Obs))
      (skip : bool) (w : world Obs) (e : error) :
  resolve_call skipStages cb = Some (skip, cb') ->
  validation_error data query = Some e ->
  run_session (debug mongo data query beforeEach afterEach skipStages cb) w =
  (Ok tt, set_obs (cb_effect cb' (Some e) (obs w)) (set_doSkipStages skip w),
   [EDone (Some e)]).
Proof.
  intros Hcall Herr. unfold validation_error in Herr.
  destruct (negb (isArray data) &&
            negb (truthy data && js_type_eqb (typeof data) TObject)) eqn:Hdata.
  - injection Herr as <-.
    apply session_invalid_data; [exact Hcall | now apply normalise_data_none].
  - destruct (normalise_data_some _ Hdata) as [docs Hdocs].
    destruct (negb (isArray query)) eqn:Hquery; [| discriminate Herr].
    injection Herr as <-.
    eapply session_invalid_query; [exact Hcall | exact Hdocs |].
    now apply negb_true_iff in Hquery.
Qed.

(** When [data] or [query] is invalid, each public method calls its
    callback once, as [cb(err)] with the validation error and no output,
    and requests no connection; [log] has printed its start banner and
    prints nothing else, [stages] and [exec] deliver nothing. *)
Theorem public_methods_report_invalid_arguments
        (U : Type) (mongo : engine) (data query : value)
        (options cb : arg (user_callback U)) (e : error)
        (w_log : world (list console_line * U)) (w_stages : world (list value * U))
        (w_exec : world (value * U)) :
  validation_error data query = Some e ->
  let r_log := run_session (log mongo data query options cb) w_log in
  let r_stages := run_session (stages mongo data query cb) w_stages in
  let r_exec := run_session (exec mongo data query cb) w_exec in
  (trace_of r_log = [EDone (Some e)]
   /\ obs (world_of r_log) =
      (fst (obs w_log) ++ [LStart],
       delivered (log_cb options cb) (Some e) VUndefined (snd (obs w_log))))
  /\ (trace_of r_stages = [EDone (Some e)]
      /\ snd (obs (world_of r_stages)) = delivered cb (Some e) VUndefined (snd (obs w_stages)))
  /\ (trace_of r_exec = [EDone (Some e)]
      /\ snd (obs (world_of r_exec)) = delivered cb (Some e) VUndefined (snd (obs w_exec))).
Proof.
  intros Herr r_log r_stages r_exec. subst r_log r_stages r_exec.
  rewrite log_lowered, stages_lowered, exec_lowered.
  erewrite !session_rejected by (try exact Herr; reflexivity).
  unfold trace_of, world_of, cb_effect, effect. cbn [fst snd obs set_obs].
  rewrite log_settled, stages_settled, exec_settled. repeat split.
Qed.

Lemma public_methods_report_invalid_arguments_witness :
  obs (world_of (run_session
    (log healthy sample_docs (VStr "query") (Val (VObj [("showQuery", VBool true)])) recording)
    (sample_world ([], [])))) =
  ([LStart], [(Some (Error "Invalid `query`"), VUndefined)]).
Proof.
  exact (proj2 (proj1
    (@public_methods_report_invalid_arguments _ healthy sample_docs (VStr "query")
       (Val (VObj [("showQuery", VBool true)])) recording (Error "Invalid `query`")
       (sample_world ([], [])) (sample_world ([], [])) (sample_world (VNull, []))
       eq_refl))).
Defined.
